(** * AIND-Recognizer: model selection and recognition control logic

    A shallow embedding of [my_model_selectors.py] and [my_recognizer.py].
    The HMM library (hmmlearn's [GaussianHMM]) is a black box: its [fit] and
    [score] are the fields of a class of external capabilities.  Python
    floats are IEEE-754 binary64 values, represented by the Standard
    Library's [spec_float] with its executable comparison and arithmetic. *)

From Stdlib Require Import ZArith Bool Lia.
From Stdlib Require Import Floats.SpecFloat.
From stdpp Require Import gmap strings list.

Open Scope Z_scope.

#[local] Set Warnings "-clear-no-such-hyp".

(** ** Python floats *)

Module PyFloat.

Definition prec : Z := 53.
Definition emax : Z := 1024.

Definition float : Type := spec_float.

(** [float("inf")], [float("-inf")] and the quiet NaN. *)
Definition inf : float := S754_infinity false.
Definition neg_inf : float := S754_infinity true.
Definition nan : float := S754_nan.
Definition zero : float := S754_zero false.

(** [x < y] and [x > y] on floats: false as soon as one side is NaN. *)
Definition flt (x y : float) : bool :=
  match SFcompare x y with Some Lt => true | _ => false end.
Definition fgt (x y : float) : bool :=
  match SFcompare x y with Some Gt => true | _ => false end.

Definition fadd : float -> float -> float := SFadd prec emax.
Definition fsub : float -> float -> float := SFsub prec emax.
Definition fmul : float -> float -> float := SFmul prec emax.
Definition fdiv : float -> float -> float := SFdiv prec emax.

(** Round-to-nearest-even conversion of an integer (no overflow check). *)
Definition round_Z (z : Z) : float := binary_normalize prec emax z 0 false.

Definition is_nan (x : float) : bool :=
  match x with S754_nan => true | _ => false end.

Definition is_infinite (x : float) : bool :=
  match x with S754_infinity _ => true | _ => false end.

(** Comparison of two finite magnitudes: exponent first, then mantissa. *)
Definition mag_cmp (e1 : Z) (m1 : positive) (e2 : Z) (m2 : positive) : comparison :=
  match Z.compare e1 e2 with
  | Lt => Lt
  | Gt => Gt
  | Eq => Pos.compare_cont Eq m1 m2
  end.

End PyFloat.

Import PyFloat.


(** ** Exceptions, and statements that may raise *)

Inductive exn : Type :=
| AttributeError
| IndexError
| KeyError
| OverflowError
| ValueError
| ZeroDivisionError
| LibraryError (code : nat).

Inductive result (A : Type) : Type :=
| Ok (a : A)
| Raise (e : exn).

Arguments Ok {A} a.
Arguments Raise {A} e.

Definition rbind {A B : Type} (m : result A) (k : A -> result B) : result B :=
  match m with
  | Ok a => k a
  | Raise e => Raise e
  end.

Notation "x <- m ;; k" := (rbind m (fun x => k))
  (at level 20, m at level 99, k at level 200, only parsing).
Notation "' p <- m ;; k" := (rbind m (fun x => match x with p => k end))
  (at level 20, p pattern, m at level 99, k at level 200, only parsing).

(** [try: body except: handler] with a bare [except]. *)
Definition try_except {A : Type} (body : result A) (handler : result A) : result A :=
  match body with
  | Ok a => Ok a
  | Raise _ => handler
  end.

(** [for a in l: s = body(s, a)]; an exception leaving the body ends the loop. *)
Fixpoint for_loop {A S : Type} (l : list A) (body : S -> A -> result S) (s : S)
  : result S :=
  match l with
  | [] => Ok s
  | a :: l' => s' <- body s a ;; for_loop l' body s'
  end.

(** [range(lo, hi)]. *)
Definition py_range (lo hi : Z) : list Z :=
  map (fun i : nat => lo + Z.of_nat i) (seq 0 (Z.to_nat (hi - lo))).

(** Lookup [d[k]] in a dictionary kept as its item list (insertion order). *)
Fixpoint dict_get {V : Type} (d : list (string * V)) (k : string) : result V :=
  match d with
  | [] => Raise KeyError
  | (k', v) :: d' => if decide (k = k') then Ok v else dict_get d' k
  end.

Definition keys {V : Type} (d : list (string * V)) : list string := map fst d.

(** ** Python numbers *)

(** A variable that starts as the int [0] and becomes a float once a float
    is added to it. *)
Inductive pynum : Type :=
| PyInt (z : Z)
| PyFloat (f : float).

(** Implicit int-to-float conversion; CPython raises [OverflowError] when the
    rounded value does not fit a double. *)
Definition float_of_int (z : Z) : result float :=
  let f := round_Z z in
  if is_infinite f then Raise OverflowError else Ok f.

(** [s + f] for a float [f]. *)
Definition num_add_float (s : pynum) (f : float) : result pynum :=
  match s with
  | PyInt z => g <- float_of_int z ;; Ok (PyFloat (fadd g f))
  | PyFloat g => Ok (PyFloat (fadd g f))
  end.

(** True division [s / c] by an int [c].  For two ints the quotient of the
    converted operands is CPython's result whenever both are below 2^53 in
    magnitude; the only int numerator the selectors ever divide is [0]. *)
Definition num_truediv_int (s : pynum) (c : Z) : result float :=
  if c =? 0 then Raise ZeroDivisionError
  else
    d <- float_of_int c ;;
    match s with
    | PyInt z => g <- float_of_int z ;; Ok (fdiv g d)
    | PyFloat g => Ok (fdiv g d)
    end.

(** [np.mean(l)]: the sum divided by the count; on the empty list this is
    [0.0 / 0], i.e. NaN (numpy warns and does not raise).  The sum is
    accumulated from left to right. *)
Definition np_mean (l : list float) : float :=
  fdiv (fold_left fadd l zero) (round_Z (Z.of_nat (length l))).

(** ** Training data *)

Definition row : Type := list float.
Definition matrix : Type := list row.
Definition sequence : Type := list row.
Definition Xlengths : Type := (matrix * list nat)%type.

(** Modelled from the spec: [asl_utils.combine_sequences] is not among the
    sources; it concatenates the sequences picked by an index list into one
    matrix and records each picked sequence's row count. *)
Fixpoint pick_sequences (split_index_list : list nat) (sequences : list sequence)
  : result (list sequence) :=
  match split_index_list with
  | [] => Ok []
  | idx :: rest =>
      match sequences !! idx with
      | None => Raise IndexError
      | Some s => tl <- pick_sequences rest sequences ;; Ok (s :: tl)
      end
  end.

Definition combine_sequences (split_index_list : list nat) (sequences : list sequence)
  : result Xlengths :=
  sequences_fold <- pick_sequences split_index_list sequences ;;
  Ok (concat sequences_fold, map (fun s : sequence => length s) sequences_fold).

(** ** scikit-learn's [KFold] (no shuffling) *)

Record KFold : Type := { n_splits : Z }.

(** The constructor rejects fewer than two splits. *)
Definition KFold_init (n : Z) : result KFold :=
  if n <=? 1 then Raise ValueError else Ok {| n_splits := n |}.

(** The [i]-th fold of [n] samples cut in [k] contiguous blocks: the first
    [n mod k] blocks have one extra element. *)
Definition fold_start (n k i : nat) : nat := (i * (n / k) + Nat.min i (n mod k))%nat.
Definition fold_size (n k i : nat) : nat :=
  (n / k + (if i <? n mod k then 1 else 0))%nat.

Definition kfold_indices (n k i : nat) : list nat * list nat :=
  let start := fold_start n k i in
  let size := fold_size n k i in
  (seq 0 start ++ seq (start + size) (n - (start + size)), seq start size).

(** [split] yields one (train indices, test indices) pair per fold and
    rejects more splits than samples. *)
Definition KFold_split (kf : KFold) (n_samples : nat)
  : result (list (list nat * list nat)) :=
  if Z.of_nat n_samples <? n_splits kf then Raise ValueError
  else
    let k := Z.to_nat (n_splits kf) in
    Ok (map (kfold_indices n_samples k) (seq 0 k)).

(** ** Keeping the best candidate seen so far *)

(** The update shared by the loops: a candidate that raised is skipped, one
    whose score is strictly [better] than the best so far replaces it. *)
Definition keep_best {A : Type} (better : float -> float -> bool)
  (st : float * A) (c : result (float * A)) : float * A :=
  match c with
  | Ok (s, a) => if better s (fst st) then (s, a) else st
  | Raise _ => st
  end.

(** ** The external HMM library *)

(** A [GaussianHMM] object: the constructor arguments the selectors pass,
    and the parameters [P] the library keeps in the object ([fitted]). *)
Record GaussianHMM (P : Type) : Type := {
  n_components : Z;
  covariance_type : string;
  n_iter : Z;
  hmm_random_state : Z;
  fitted : P
}.

Arguments n_components {P} _.
Arguments covariance_type {P} _.
Arguments n_iter {P} _.
Arguments hmm_random_state {P} _.
Arguments fitted {P} _.

Definition with_fitted {P : Type} (m : GaussianHMM P) (p : P) : GaussianHMM P :=
  {| n_components := n_components m;
     covariance_type := covariance_type m;
     n_iter := n_iter m;
     hmm_random_state := hmm_random_state m;
     fitted := p |}.

(** What the program takes from outside.  [hmm_fit m d] is [m.fit(X, lengths)]:
    it gives the parameters the call leaves in the object and the exception
    it raised, if any (a failing fit may already have overwritten
    parameters).  [hmm_score m d] is [m.score(X, lengths)], which reads the
    object only.  [math_log] is [math.log] on a positive int. *)
Class External (P : Type) : Type := {
  unfitted : P;
  hmm_fit : GaussianHMM P -> Xlengths -> P * option exn;
  hmm_score : GaussianHMM P -> Xlengths -> result float;
  math_log : Z -> float
}.

(** ** The selector base class *)

Record ModelSelector : Type := {
  words : list (string * list sequence);
  hwords : list (string * Xlengths);
  sequences : list sequence;
  X : matrix;
  lengths : list nat;
  this_word : string;
  n_constant : Z;
  min_n_components : Z;
  max_n_components : Z;
  random_state : Z;
  verbose : bool
}.

(** [ModelSelector.__init__]; the defaults of the keyword arguments are
    [n_constant=3], [min_n_components=2], [max_n_components=10],
    [random_state=14], [verbose=False]. *)
Definition ModelSelector_init (all_word_sequences : list (string * list sequence))
  (all_word_Xlengths : list (string * Xlengths)) (word : string)
  (n_const min_n max_n seed : Z) (verb : bool) : result ModelSelector :=
  seqs <- dict_get all_word_sequences word ;;
  xl <- dict_get all_word_Xlengths word ;;
  Ok {| words := all_word_sequences;
        hwords := all_word_Xlengths;
        sequences := seqs;
        X := fst xl;
        lengths := snd xl;
        this_word := word;
        n_constant := n_const;
        min_n_components := min_n;
        max_n_components := max_n;
        random_state := seed;
        verbose := verb |}.

Section Selectors.

Context {P : Type} `{Ext : External P}.

(** [GaussianHMM(...)] followed by [.fit(X, lengths)] on the new object. *)
Definition fit_value (m : GaussianHMM P) (d : Xlengths) : result (GaussianHMM P) :=
  match hmm_fit m d with
  | (p, None) => Ok (with_fitted m p)
  | (_, Some e) => Raise e
  end.

(** [model.score(X, lengths)] where [model] may be [None]. *)
Definition py_score (model : option (GaussianHMM P)) (d : Xlengths) : result float :=
  match model with
  | None => Raise AttributeError
  | Some m => hmm_score m d
  end.

(** [math.log(n)] for an int [n]. *)
Definition py_math_log (n : Z) : result float :=
  if n <=? 0 then Raise ValueError else Ok (math_log n).

(** The object [GaussianHMM(n_components=num_states, covariance_type="diag",
    n_iter=1000, random_state=self.random_state, verbose=False)] builds. *)
Definition new_hmm (self : ModelSelector) (num_states : Z) : GaussianHMM P :=
  {| n_components := num_states;
     covariance_type := "diag";
     n_iter := 1000;
     hmm_random_state := random_state self;
     fitted := unfitted |}.

(** [ModelSelector.base_model]; the [verbose] prints are not modelled. *)
Definition base_model (self : ModelSelector) (num_states : Z)
  : result (option (GaussianHMM P)) :=
  try_except
    (hmm_model <- fit_value (new_hmm self num_states) (X self, lengths self) ;;
     Ok (Some hmm_model))
    (Ok None).

(** *** SelectorConstant *)

Definition SelectorConstant_select (self : ModelSelector)
  : result (option (GaussianHMM P)) :=
  let best_num_components := n_constant self in
  base_model self best_num_components.

(** *** SelectorBIC *)

(** The parameter count as the code writes it, and as the criterion is
    usually stated: initial probabilities, transitions, means and variances. *)
Definition bic_p (n d : Z) : Z := -1 + n ^ 2 + n * d * 2.
Definition bic_p_spec (n d : Z) : Z := (n - 1) + n * (n - 1) + 2 * n * d.

(** [-2 * logL + p * logN] with an int [p]. *)
Definition bic_value (logL : float) (p : Z) (logN : float) : result float :=
  minus2 <- float_of_int (-2) ;;
  pf <- float_of_int p ;;
  Ok (fadd (fmul minus2 logL) (fmul pf logN)).

(** [self.X[0]]. *)
Definition first_row (x : matrix) : result row :=
  match x with
  | [] => Raise IndexError
  | r :: _ => Ok r
  end.

(** The statements of the [try] block up to the assignment of [BIC]. *)
Definition bic_candidate (self : ModelSelector) (n : Z)
  : result (float * option (GaussianHMM P)) :=
  model <- base_model self n ;;
  logL <- py_score model (X self, lengths self) ;;
  x0 <- first_row (X self) ;;
  let p := bic_p n (Z.of_nat (length x0)) in
  logN <- py_math_log (Z.of_nat (length (X self))) ;;
  BIC <- bic_value logL p logN ;;
  Ok (BIC, model).

Definition bic_step (self : ModelSelector) (st : float * option (GaussianHMM P))
  (n : Z) : result (float * option (GaussianHMM P)) :=
  try_except
    ('(BIC, model) <- bic_candidate self n ;;
     Ok (if flt BIC (fst st) then (BIC, model) else st))
    (Ok st).

Definition SelectorBIC_select (self : ModelSelector)
  : result (option (GaussianHMM P)) :=
  st <- for_loop (py_range (min_n_components self) (max_n_components self + 1))
          (bic_step self) (inf, None) ;;
  Ok (snd st).

(** *** SelectorDIC *)

(** The loop over [self.hwords] that accumulates [sum_anti_logL] and
    [word_count]. *)
Definition dic_others_step (self : ModelSelector) (model : GaussianHMM P)
  (acc : pynum * Z) (entry : string * Xlengths) : result (pynum * Z) :=
  let word := fst entry in
  if decide (word <> this_word self) then
    xl <- dict_get (hwords self) word ;;
    s <- hmm_score model xl ;;
    sum' <- num_add_float (fst acc) s ;;
    Ok (sum', snd acc + 1)
  else Ok acc.

Definition dic_others (self : ModelSelector) (model : GaussianHMM P)
  : result (pynum * Z) :=
  for_loop (hwords self) (dic_others_step self model) (PyInt 0, 0).

(** The statements of the [try] block up to the assignment of [DIC], for a
    model that passed [if model:]. *)
Definition dic_candidate (self : ModelSelector) (model : GaussianHMM P)
  : result float :=
  logL <- hmm_score model (X self, lengths self) ;;
  '(sum_anti_logL, word_count) <- dic_others self model ;;
  mean_anti_logL <- num_truediv_int sum_anti_logL word_count ;;
  Ok (fsub logL mean_anti_logL).

Definition dic_step (self : ModelSelector) (st : float * option (GaussianHMM P))
  (n : Z) : result (float * option (GaussianHMM P)) :=
  try_except
    (model <- base_model self n ;;
     match model with
     | Some m =>
         DIC <- dic_candidate self m ;;
         Ok (if fgt DIC (fst st) then (DIC, Some m) else st)
     | None => Ok st
     end)
    (Ok st).

Definition SelectorDIC_select (self : ModelSelector)
  : result (option (GaussianHMM P)) :=
  st <- for_loop (py_range (min_n_components self) (max_n_components self + 1))
          (dic_step self) (neg_inf, None) ;;
  Ok (snd st).

(** The state-count bound carried through a search loop. *)
Definition in_search_range (self : ModelSelector) (model : option (GaussianHMM P))
  : Prop :=
  forall m, model = Some m ->
            min_n_components self <= n_components m <= max_n_components self.

(** *** Model objects refitted in place

    [SelectorCV] calls [fit] again on the object [base_model] returned, so
    there the objects live in a store and variables hold references. *)

Abbreviation heap := (list (GaussianHMM P)) (only parsing).
Abbreviation ref := nat (only parsing).

(** A statement: it may raise, and what it did to the store stays done. *)
Definition M (A : Type) : Type := heap -> result A * heap.

Definition mret {A : Type} (a : A) : M A := fun h => (Ok a, h).

Definition mbind {A B : Type} (m : M A) (k : A -> M B) : M B :=
  fun h => match m h with
           | (Ok a, h') => k a h'
           | (Raise e, h') => (Raise e, h')
           end.

Definition lift {A : Type} (r : result A) : M A := fun h => (r, h).

Definition mtry {A : Type} (body : M A) (handler : M A) : M A :=
  fun h => match body h with
           | (Ok a, h') => (Ok a, h')
           | (Raise _, h') => handler h'
           end.

Notation "x <~ m ;; k" := (mbind m (fun x => k))
  (at level 20, m at level 99, k at level 200, only parsing).

Fixpoint mfor {A S : Type} (l : list A) (body : S -> A -> M S) (s : S) : M S :=
  match l with
  | [] => mret s
  | a :: l' => s' <~ body s a ;; mfor l' body s'
  end.

(** A new object gets the next free reference. *)
Definition new_object (o : GaussianHMM P) : M ref :=
  fun h => (Ok (length h), h ++ [o]).

(** [model.fit(X, lengths)] on a variable: the object it refers to is
    overwritten, whether the call returns or raises. *)
Definition fit_ref (model : option ref) (d : Xlengths) : M unit :=
  fun h =>
    match model with
    | None => (Raise AttributeError, h)
    | Some r =>
        match h !! r with
        | None => (Raise AttributeError, h)
        | Some o =>
            let '(p, e) := hmm_fit o d in
            let h' := <[r := with_fitted o p]> h in
            match e with
            | None => (Ok tt, h')
            | Some e => (Raise e, h')
            end
        end
    end.

Definition score_ref (model : option ref) (d : Xlengths) : M float :=
  fun h =>
    match model with
    | None => (Raise AttributeError, h)
    | Some r =>
        match h !! r with
        | None => (Raise AttributeError, h)
        | Some o => (hmm_score o d, h)
        end
    end.

(** [self.base_model(n)] as a statement: the object it returns is new. *)
Definition base_model_ref (self : ModelSelector) (n : Z) : M (option ref) :=
  model <~ lift (base_model self n) ;;
  match model with
  | None => mret None
  | Some o => r <~ new_object o ;; mret (Some r)
  end.

(** *** SelectorCV *)

(** One pass of the loop over the folds: the inner [try] block. *)
Definition cv_fold (self : ModelSelector) (model : option ref)
  (logLs : list float) (split : list nat * list nat) : M (list float) :=
  let '(cv_train_idx, cv_test_idx) := split in
  mtry
    (train <~ lift (combine_sequences cv_train_idx (sequences self)) ;;
     test <~ lift (combine_sequences cv_test_idx (sequences self)) ;;
     _ <~ fit_ref model train ;;
     logL <~ score_ref model test ;;
     mret (logLs ++ [logL]))
    (mret logLs).

(** One pass of the loop over the state counts: the outer [try] block. *)
Definition cv_step (self : ModelSelector) (split_method : KFold)
  (st : float * option ref) (n : Z) : M (float * option ref) :=
  mtry
    (model <~ base_model_ref self n ;;
     folds <~ lift (KFold_split split_method (length (sequences self))) ;;
     logLs <~ mfor folds (cv_fold self model) [] ;;
     let mean_score := np_mean logLs in
     mret (if fgt mean_score (fst st) then (mean_score, model) else st))
    (mret st).

Definition SelectorCV_select (self : ModelSelector) : M (option ref) :=
  split_method <~
    lift (KFold_init (Z.min (Z.of_nat (length (sequences self))) 3)) ;;
  st <~ mfor (py_range (min_n_components self) (max_n_components self + 1))
          (cv_step self split_method) (neg_inf, None) ;;
  mret (snd st).

(** What the loop over the folds does to the one object it refits, told
    without the store: the object after the fold, and the fold's
    log-likelihood when the inner [try] block ran to its end. *)
Definition cv_fold_obj (self : ModelSelector) (o : GaussianHMM P)
  (split : list nat * list nat) : GaussianHMM P * option float :=
  match combine_sequences (fst split) (sequences self),
        combine_sequences (snd split) (sequences self) with
  | Ok train, Ok test =>
      let o' := with_fitted o (fst (hmm_fit o train)) in
      match snd (hmm_fit o train), hmm_score o' test with
      | None, Ok logL => (o', Some logL)
      | _, _ => (o', None)
      end
  | _, _ => (o, None)
  end.

Fixpoint cv_folds_obj (self : ModelSelector) (o : GaussianHMM P)
  (folds : list (list nat * list nat)) : GaussianHMM P * list float :=
  match folds with
  | [] => (o, [])
  | f :: fs =>
      let o' := fst (cv_fold_obj self o f) in
      let rest := cv_folds_obj self o' fs in
      (fst rest,
       match snd (cv_fold_obj self o f) with
       | Some logL => logL :: snd rest
       | None => snd rest
       end)
  end.

(** The parameters written by the refit of the last fold whose [try] block
    ran to its end ([acc] when there is no such fold). *)
Fixpoint last_ok_refit (self : ModelSelector) (o : GaussianHMM P)
  (folds : list (list nat * list nat)) (acc : option P) : option P :=
  match folds with
  | [] => acc
  | f :: fs =>
      let o' := fst (cv_fold_obj self o f) in
      last_ok_refit self o' fs
        (match snd (cv_fold_obj self o f) with
         | Some _ => Some (fitted o')
         | None => acc
         end)
  end.

(** The object a returned reference stands for. *)
Definition deref (h : heap) (model : option ref) : option (GaussianHMM P) :=
  match model with
  | None => None
  | Some r => h !! r
  end.

(** ** The recognizer *)

(** [test_set.get_all_Xlengths()]: item number to (X, lengths). *)
Record SinglesData : Type := { get_all_Xlengths : list (Z * Xlengths) }.

Definition values {K V : Type} (d : list (K * V)) : list V := map snd d.

(** One pass of the loop over [models.items()]. *)
Definition recognize_step (xl : Xlengths)
  (st : gmap string float * float * option string)
  (entry : string * option (GaussianHMM P))
  : result (gmap string float * float * option string) :=
  let '(dict_probabilities, best_score, best_guess) := st in
  let '(item, model) := entry in
  try_except
    (score <- py_score model xl ;;
     let dict_probabilities := <[item := score]> dict_probabilities in
     Ok (if fgt score best_score
         then (dict_probabilities, score, Some item)
         else (dict_probabilities, best_score, best_guess)))
    (Ok (<[item := neg_inf]> dict_probabilities, best_score, best_guess)).

(** The body of the loop over the test items. *)
Definition recognize_item (models : list (string * option (GaussianHMM P)))
  (xl : Xlengths) : result (gmap string float * option string) :=
  '(dict_probabilities, _, best_guess) <-
    for_loop models (recognize_step xl) (∅, neg_inf, None) ;;
  Ok (dict_probabilities, best_guess).

Definition recognize (models : list (string * option (GaussianHMM P)))
  (test_set : SinglesData)
  : result (list (gmap string float) * list (option string)) :=
  for_loop (values (get_all_Xlengths test_set))
    (fun '(probabilities, guesses) xl =>
       '(dict_probabilities, best_guess) <- recognize_item models xl ;;
       Ok (probabilities ++ [dict_probabilities], guesses ++ [best_guess]))
    ([], []).

(** The two halves of the loop state in [recognize], each on its own: the
    table of recorded scores and the running best guess. *)
Definition recorded (model : option (GaussianHMM P)) (xl : Xlengths) : float :=
  match py_score model xl with
  | Ok score => score
  | Raise _ => neg_inf
  end.

Definition score_table (models : list (string * option (GaussianHMM P)))
  (xl : Xlengths) (d : gmap string float) : gmap string float :=
  fold_left (fun d entry => <[fst entry := recorded (snd entry) xl]> d) models d.

Definition guess_candidate (xl : Xlengths) (entry : string * option (GaussianHMM P))
  : result (float * option string) :=
  score <- py_score (snd entry) xl ;; Ok (score, Some (fst entry)).

Definition best_guess (models : list (string * option (GaussianHMM P)))
  (xl : Xlengths) : option string :=
  snd (fold_left (keep_best fgt) (map (guess_candidate xl) models) (neg_inf, None)).

End Selectors.

(** ** Small concrete worlds *)

Module Toy.

(** A library stub whose objects remember the data of their last [fit]. *)
Definition params : Type := option Xlengths.

Definition f (z : Z) : float := round_Z z.

Definition one_row : row := [f 1].
Definition seq1 : sequence := [one_row].
Definition seq2 : sequence := [one_row; one_row].
Definition seq3 : sequence := [one_row; one_row; one_row].

Definition xl1 : Xlengths := (seq1, [1%nat]).
Definition xl3 : Xlengths := (seq1 ++ seq2 ++ seq3, [1%nat; 2%nat; 3%nat]).
Definition xl7 : Xlengths := (repeat one_row 7, [7%nat]).

(** [fit] always succeeds; [score] is [logL] unless the data holds a
    sequence of [bad] rows, where it raises. *)
Definition ext (logL : float) (bad : nat) : External params :=
  {| unfitted := None;
     hmm_fit := fun _ d => (Some d, None);
     hmm_score := fun _ d =>
       if decide (bad ∈ snd d) then Raise (LibraryError 1) else Ok logL;
     math_log := fun n => f (Z.log2 n) |}.

(** [fit] always fails. *)
Definition ext_nofit : External params :=
  {| unfitted := None;
     hmm_fit := fun _ d => (None, Some (LibraryError 2));
     hmm_score := fun _ d => Ok (f 0);
     math_log := fun n => f (Z.log2 n) |}.

Definition selector (hw : list (string * Xlengths)) (seqs : list sequence)
  (xl : Xlengths) (lo hi : Z) : ModelSelector :=
  {| words := [("A", seqs)];
     hwords := hw;
     sequences := seqs;
     X := fst xl;
     lengths := snd xl;
     this_word := "A";
     n_constant := 3;
     min_n_components := lo;
     max_n_components := hi;
     random_state := 14;
     verbose := false |}.

(** One category with three sequences. *)
Definition three : ModelSelector :=
  selector [("A", xl3)] [seq1; seq2; seq3] xl3 2 3.

(** One category with a single sequence. *)
Definition single : ModelSelector :=
  selector [("A", xl1)] [seq1] xl1 2 3.

(** Two categories. *)
Definition pair : ModelSelector :=
  selector [("A", xl3); ("B", xl7)] [seq1; seq2; seq3] xl3 2 3.

Definition hmm (n : Z) (p : params) : GaussianHMM params :=
  {| n_components := n; covariance_type := "diag"; n_iter := 1000;
     hmm_random_state := 14; fitted := p |}.

Definition test_set : SinglesData :=
  {| get_all_Xlengths := [(0, xl1); (1, xl3)] |}.

(** Two trained categories. *)
Definition models : list (string * option (GaussianHMM params)) :=
  [("A", Some (hmm 2 (Some xl3))); ("B", Some (hmm 3 (Some xl7)))].

(** The three folds of three sequences. *)
Definition folds3 : list (list nat * list nat) :=
  [([1; 2], [0]); ([0; 2], [1]); ([0; 1], [2])]%nat.

End Toy.

(** ** Notions used to state what the searches compute *)

Section Criteria.

Context {P : Type} `{Ext : External P}.

(** The entries of [self.hwords] that pass [if word != self.this_word]. *)
Definition other_words (self : ModelSelector) : list (string * Xlengths) :=
  filter (fun entry => fst entry <> this_word self) (hwords self).

(** The score of one other word, as a pass of the accumulation loop gets it. *)
Definition scored_as (self : ModelSelector) (m : GaussianHMM P)
  (entry : string * Xlengths) (s : float) : Prop :=
  exists xl, dict_get (hwords self) (fst entry) = Ok xl /\ hmm_score m xl = Ok s.

(** [m] is the object built for [n] states after a [fit] on the word's full
    combined data that did not raise. *)
Definition fitted_on_full_data (self : ModelSelector) (n : Z) (m : GaussianHMM P)
  : Prop :=
  hmm_fit (new_hmm self n) (X self, lengths self) = (fitted m, None) /\
  m = with_fitted (new_hmm self n) (fitted m).

(** The value [mean_score] takes in the pass of [SelectorCV.select] over
    state count [n]; none when [base_model] gave no model or the split
    raised, so that the pass was abandoned. *)
Definition cv_mean_score (self : ModelSelector) (split_method : KFold) (n : Z)
  : option float :=
  match base_model self n, KFold_split split_method (length (sequences self)) with
  | Ok (Some o), Ok folds => Some (np_mean (snd (cv_folds_obj self o folds)))
  | _, _ => None
  end.

End Criteria.

Module ToyMore.

(** A search range with [max_n_components < min_n_components]. *)
Definition empty_range : ModelSelector :=
  Toy.selector [("A", Toy.xl3)] [Toy.seq1; Toy.seq2; Toy.seq3] Toy.xl3 3 2.

(** A mapping in which one category has no model. *)
Definition models_gap : list (string * option (GaussianHMM Toy.params)) :=
  [("A", None); ("B", Some (Toy.hmm 3 (Some Toy.xl7)))].

(** A corpus of two words, as [ModelSelector.__init__] takes it. *)
Definition corpus_sequences : list (string * list sequence) :=
  [("A", [Toy.seq1; Toy.seq2; Toy.seq3]); ("B", [Toy.seq1])].
Definition corpus_Xlengths : list (string * Xlengths) :=
  [("A", Toy.xl3); ("B", Toy.xl7)].

End ToyMore.

(** ** Order facts about binary64 comparison *)

Section FloatOrder.

Lemma mag_cmp_Lt e1 m1 e2 m2 :
  mag_cmp e1 m1 e2 m2 = Lt <-> (e1 < e2 \/ (e1 = e2 /\ (m1 < m2)%positive)).
Proof.
  unfold mag_cmp. change (Pos.compare_cont Eq m1 m2) with (Pos.compare m1 m2).
  destruct (Z.compare_spec e1 e2) as [He|He|He].
  - rewrite Pos.compare_lt_iff. split; [tauto | intros [?|[_ ?]]; [lia | done]].
  - split; [tauto | done].
  - split; [done | lia].
Qed.

Lemma mag_cmp_Gt e1 m1 e2 m2 :
  mag_cmp e1 m1 e2 m2 = Gt <-> (e2 < e1 \/ (e1 = e2 /\ (m2 < m1)%positive)).
Proof.
  unfold mag_cmp. change (Pos.compare_cont Eq m1 m2) with (Pos.compare m1 m2).
  destruct (Z.compare_spec e1 e2) as [He|He|He].
  - rewrite Pos.compare_gt_iff. split; [tauto | intros [?|[_ ?]]; [lia | done]].
  - split; [done | lia].
  - split; [tauto | done].
Qed.

Lemma mag_cmp_Eq e1 m1 e2 m2 :
  mag_cmp e1 m1 e2 m2 = Eq <-> (e1 = e2 /\ m1 = m2).
Proof.
  unfold mag_cmp. change (Pos.compare_cont Eq m1 m2) with (Pos.compare m1 m2).
  destruct (Z.compare_spec e1 e2) as [He|He|He].
  - rewrite Pos.compare_eq_iff. tauto.
  - split; [done | lia].
  - split; [done | lia].
Qed.

Lemma SFcompare_finite s1 m1 e1 s2 m2 e2 :
  SFcompare (S754_finite s1 m1 e1) (S754_finite s2 m2 e2) =
  Some (match s1, s2 with
        | true, false => Lt
        | false, true => Gt
        | false, false => mag_cmp e1 m1 e2 m2
        | true, true => CompOpp (mag_cmp e1 m1 e2 m2)
        end).
Proof.
  unfold mag_cmp. destruct s1, s2; simpl; try reflexivity.
  destruct (e1 ?= e2); reflexivity.
Qed.

(** Turn every fact about [mag_cmp] in the context into arithmetic. *)
Ltac mag_arith :=
  repeat match goal with
         | H : mag_cmp _ _ _ _ = Lt |- _ => apply mag_cmp_Lt in H
         | H : mag_cmp _ _ _ _ = Gt |- _ => apply mag_cmp_Gt in H
         | H : mag_cmp _ _ _ _ = Eq |- _ => apply mag_cmp_Eq in H
         end;
  try lia.

Ltac float_cases a b c :=
  destruct a as [[]|[]| |[] ? ?], b as [[]|[]| |[] ? ?], c as [[]|[]| |[] ? ?];
  rewrite ?SFcompare_finite; simpl; try congruence.

Ltac mag_split :=
  repeat match goal with
         | |- context [mag_cmp ?a ?b ?c ?d] =>
             let E := fresh "E" in destruct (mag_cmp a b c d) eqn:E; simpl
         end;
  try congruence; intros; exfalso; mag_arith.

Lemma SFcompare_Gt_trans a b c :
  SFcompare a b = Some Gt -> SFcompare b c = Some Gt -> SFcompare a c = Some Gt.
Proof. float_cases a b c; mag_split. Qed.

Lemma SFcompare_Lt_trans a b c :
  SFcompare a b = Some Lt -> SFcompare b c = Some Lt -> SFcompare a c = Some Lt.
Proof. float_cases a b c; mag_split. Qed.

(** [a > b] and [c <= b] give [a > c]. *)
Lemma SFcompare_Gt_le a b c r :
  SFcompare a b = Some Gt -> SFcompare c b = Some r -> r <> Gt ->
  SFcompare a c = Some Gt.
Proof.
  float_cases a b c; try (intros; congruence); mag_split; congruence.
Qed.

(** [a < b] and [c >= b] give [a < c]. *)
Lemma SFcompare_Lt_ge a b c r :
  SFcompare a b = Some Lt -> SFcompare c b = Some r -> r <> Lt ->
  SFcompare a c = Some Lt.
Proof.
  float_cases a b c; try (intros; congruence); mag_split; congruence.
Qed.

Lemma SFcompare_total a b :
  is_nan a = false -> is_nan b = false -> exists r, SFcompare a b = Some r.
Proof.
  destruct a as [[]|[]| |[] ? ?], b as [[]|[]| |[] ? ?]; simpl;
    try discriminate; eauto.
Qed.

End FloatOrder.

Lemma SFcompare_refl_not_strict a r :
  SFcompare a a = Some r -> r = Eq.
Proof.
  destruct a as [[]|[]| |[] m e]; rewrite ?SFcompare_finite; simpl;
    intros [= <-]; try reflexivity.
  - assert (mag_cmp e m e m = Eq) as -> by (apply mag_cmp_Eq; done). done.
  - assert (mag_cmp e m e m = Eq) as -> by (apply mag_cmp_Eq; done). done.
Qed.

(** *** The strict comparisons [<] and [>] *)

Lemma flt_inv a b : flt a b = true -> SFcompare a b = Some Lt.
Proof. unfold flt. destruct (SFcompare a b) as [[]|]; done. Qed.

Lemma fgt_inv a b : fgt a b = true -> SFcompare a b = Some Gt.
Proof. unfold fgt. destruct (SFcompare a b) as [[]|]; done. Qed.

Lemma flt_not_nan a b : flt a b = true -> is_nan a = false /\ is_nan b = false.
Proof. destruct a, b; simpl; done. Qed.

Lemma fgt_not_nan a b : fgt a b = true -> is_nan a = false /\ is_nan b = false.
Proof. destruct a, b; simpl; done. Qed.

Lemma flt_irrefl a : flt a a = false.
Proof.
  unfold flt. destruct (SFcompare a a) as [r|] eqn:E; [|done].
  apply SFcompare_refl_not_strict in E as ->. done.
Qed.

Lemma fgt_irrefl a : fgt a a = false.
Proof.
  unfold fgt. destruct (SFcompare a a) as [r|] eqn:E; [|done].
  apply SFcompare_refl_not_strict in E as ->. done.
Qed.

Lemma flt_trans a b c : flt a b = true -> flt b c = true -> flt a c = true.
Proof.
  intros H1%flt_inv H2%flt_inv. unfold flt.
  by rewrite (SFcompare_Lt_trans a b c H1 H2).
Qed.

Lemma fgt_trans a b c : fgt a b = true -> fgt b c = true -> fgt a c = true.
Proof.
  intros H1%fgt_inv H2%fgt_inv. unfold fgt.
  by rewrite (SFcompare_Gt_trans a b c H1 H2).
Qed.

Lemma flt_weak a b c :
  flt a b = true -> flt c b = false -> is_nan c = false -> flt a c = true.
Proof.
  intros H1 H2 Hc. destruct (flt_not_nan _ _ H1) as [_ Hb].
  destruct (SFcompare_total c b Hc Hb) as [r Hr].
  apply flt_inv in H1. unfold flt in *. rewrite Hr in H2.
  rewrite (SFcompare_Lt_ge a b c r H1 Hr); [done|]. by destruct r.
Qed.

Lemma fgt_weak a b c :
  fgt a b = true -> fgt c b = false -> is_nan c = false -> fgt a c = true.
Proof.
  intros H1 H2 Hc. destruct (fgt_not_nan _ _ H1) as [_ Hb].
  destruct (SFcompare_total c b Hc Hb) as [r Hr].
  apply fgt_inv in H1. unfold fgt in *. rewrite Hr in H2.
  rewrite (SFcompare_Gt_le a b c r H1 Hr); [done|]. by destruct r.
Qed.

(** Nothing is below [-inf], nothing above [+inf], and NaN compares false. *)
Lemma fgt_neg_inf_l a : fgt neg_inf a = false.
Proof. by destruct a as [[]|[]| |[] ? ?]. Qed.

Lemma flt_inf_l a : flt inf a = false.
Proof. by destruct a as [[]|[]| |[] ? ?]. Qed.

Lemma fgt_nan_l a : fgt nan a = false.
Proof. done. Qed.

Lemma fgt_neg_inf_r a :
  fgt a neg_inf = true <-> is_nan a = false /\ a <> neg_inf.
Proof. destruct a as [[]|[]| |[] ? ?]; simpl; split; try done; intros []; done. Qed.

Lemma flt_inf_r a :
  flt a inf = true <-> is_nan a = false /\ a <> inf.
Proof. destruct a as [[]|[]| |[] ? ?]; simpl; split; try done; intros []; done. Qed.

Lemma np_mean_nil : np_mean [] = nan.
Proof. reflexivity. Qed.

(** ** Loops *)

Lemma for_loop_app {A S : Type} (l1 l2 : list A) (body : S -> A -> result S) s :
  for_loop (l1 ++ l2) body s = (s' <- for_loop l1 body s ;; for_loop l2 body s').
Proof.
  revert s. induction l1 as [|a l1 IH]; intros s; simpl; [done|].
  destruct (body s a); simpl; [apply IH | done].
Qed.

(** A loop whose body swallows every exception is a plain left fold. *)
Lemma for_loop_total {A S : Type} (l : list A) (body : S -> A -> result S)
  (g : S -> A -> S) s :
  (forall s a, body s a = Ok (g s a)) ->
  for_loop l body s = Ok (fold_left g l s).
Proof.
  intros Hg. revert s. induction l as [|a l IH]; intros s; simpl; [done|].
  rewrite Hg. simpl. apply IH.
Qed.

Lemma fold_left_keep_best_map {A B : Type} better (cand : B -> result (float * A))
  (l : list B) st :
  fold_left (fun st n => keep_best better st (cand n)) l st =
  fold_left (keep_best better) (map cand l) st.
Proof. revert st. induction l as [|b l IH]; intros st; simpl; [done | apply IH]. Qed.

Lemma py_range_spec lo hi n : In n (py_range lo hi) <-> lo <= n < hi.
Proof.
  unfold py_range. rewrite in_map_iff. split.
  - intros (i & <- & Hi%in_seq). lia.
  - intros Hn. exists (Z.to_nat (n - lo)). split; [lia|]. apply in_seq. lia.
Qed.

Lemma for_loop_invariant {A S : Type} (I : S -> Prop) (l : list A)
  (body : S -> A -> result S) s :
  I s ->
  (forall s a s', In a l -> I s -> body s a = Ok s' -> I s') ->
  forall s', for_loop l body s = Ok s' -> I s'.
Proof.
  revert s. induction l as [|a l IH]; intros s Hs Hstep s'; simpl.
  - by intros [= <-].
  - destruct (body s a) as [s1|e] eqn:Hb; simpl; [|done].
    apply IH; [eapply Hstep; eauto; by left|].
    intros ? ? ? ?. apply Hstep. by right.
Qed.

(** A pass that leaves the state as it found it can be left out. *)
Lemma for_loop_skip {A S : Type} (l1 l2 : list A) (a : A)
  (body : S -> A -> result S) s :
  (forall s, body s a = Ok s) ->
  for_loop (l1 ++ a :: l2) body s = for_loop (l1 ++ l2) body s.
Proof.
  intros Ha. rewrite !for_loop_app. destruct (for_loop l1 body s); simpl; [|done].
  by rewrite Ha.
Qed.

(** ** The best candidate of a run *)

Section KeepBest.

Context {A : Type}.
Variable better : float -> float -> bool.
Hypothesis better_irrefl : forall a, better a a = false.
Hypothesis better_trans :
  forall a b c, better a b = true -> better b c = true -> better a c = true.
Hypothesis better_weak :
  forall a b c, better a b = true -> better c b = false -> is_nan c = false ->
                better a c = true.

Lemma better_asym a b : better a b = true -> better b a = false.
Proof.
  intros Hab. destruct (better b a) eqn:Hba; [|done].
  pose proof (better_irrefl a) as Hirr.
  by rewrite (better_trans a b a Hab Hba) in Hirr.
Qed.

(** Either no candidate beat the initial score and the state is untouched,
    or the state is the first candidate that no other candidate beats. *)
Lemma keep_best_fold (cands : list (result (float * A))) (s0 : float) (a0 : A) :
  (fold_left (keep_best better) cands (s0, a0) = (s0, a0) /\
   forall s a, In (Ok (s, a)) cands -> better s s0 = false)
  \/
  (exists l1 s a l2,
      cands = l1 ++ Ok (s, a) :: l2 /\
      fold_left (keep_best better) cands (s0, a0) = (s, a) /\
      better s s0 = true /\
      (forall s' a', In (Ok (s', a')) cands -> better s' s = false) /\
      (forall s' a', In (Ok (s', a')) l1 -> is_nan s' = false -> better s s' = true)).
Proof.
  revert s0 a0. induction cands as [|c cands IH]; intros s0 a0.
  { left. split; [done | intros ? ? []]. }
  simpl. destruct c as [[s a]|e]; simpl.
  - destruct (better s s0) eqn:Hs.
    + destruct (IH s a) as [[Hst Hall]|(l1 & s2 & a2 & l2 & -> & Hst & Hb & Hall & Hfirst)].
      * right. exists [], s, a, cands. repeat split; try done.
        intros s' a' [[= -> ->]|Hin]; [apply better_irrefl | eauto].
      * right. exists (Ok (s, a) :: l1), s2, a2, l2. repeat split; try done.
        -- eauto.
        -- intros s' a' [[= -> ->]|Hin]; [by apply better_asym | eauto].
        -- intros s' a' [[= -> ->]|Hin] Hnan; [done | eauto].
    + destruct (IH s0 a0) as [[Hst Hall]|(l1 & s2 & a2 & l2 & -> & Hst & Hb & Hall & Hfirst)].
      * left. split; [done|]. intros s' a' [[= -> ->]|Hin]; eauto.
      * right. exists (Ok (s, a) :: l1), s2, a2, l2. repeat split; try done.
        -- intros s' a' [[= -> ->]|Hin]; [|eauto].
           destruct (better s' s2) eqn:Hc; [|done].
           by rewrite (better_trans _ _ _ Hc Hb) in Hs.
        -- intros s' a' [[= -> ->]|Hin] Hnan; [eauto | eauto].
  - destruct (IH s0 a0) as [[Hst Hall]|(l1 & s2 & a2 & l2 & -> & Hst & Hb & Hall & Hfirst)].
    + left. split; [done|]. intros s' a' [[=]|Hin]; eauto.
    + right. exists (Raise e :: l1), s2, a2, l2. repeat split; try done.
      * intros s' a' [[=]|Hin]; eauto.
      * intros s' a' [[=]|Hin]; eauto.
Qed.

End KeepBest.

Lemma py_range_cons lo hi : lo < hi -> py_range lo hi = lo :: py_range (lo + 1) hi.
Proof.
  intros H. unfold py_range.
  replace (Z.to_nat (hi - lo)) with (S (Z.to_nat (hi - (lo + 1)))) by lia.
  simpl. f_equal; [lia|]. rewrite <- seq_shift, map_map.
  apply map_ext. intros i. lia.
Qed.

Lemma py_range_nil lo hi : hi <= lo -> py_range lo hi = [].
Proof. intros H. unfold py_range. by replace (Z.to_nat (hi - lo)) with 0%nat by lia. Qed.

(** Cutting a range at one of its elements. *)
Lemma py_range_split lo hi r1 n r2 :
  py_range lo hi = r1 ++ n :: r2 ->
  (forall n', In n' r1 -> n' < n) /\ r2 = py_range (n + 1) hi.
Proof.
  revert lo. induction r1 as [|a r1 IH]; intros lo Hr.
  - destruct (Z_lt_le_dec lo hi) as [Hlt|Hle].
    + rewrite (py_range_cons _ _ Hlt) in Hr. injection Hr as -> <-.
      split; [intros ? [] | done].
    + by rewrite (py_range_nil _ _ Hle) in Hr.
  - destruct (Z_lt_le_dec lo hi) as [Hlt|Hle].
    + rewrite (py_range_cons _ _ Hlt) in Hr. simpl in Hr. injection Hr as <- Hr.
      destruct (IH _ Hr) as [Hlt' ->]. split; [|done].
      intros n' [<-|Hin]; [|by apply Hlt'].
      assert (In n (py_range (lo + 1) hi)) as Hn
          by (rewrite Hr; apply in_elt).
      apply py_range_spec in Hn. lia.
    + by rewrite (py_range_nil _ _ Hle) in Hr.
Qed.

Lemma py_range_before lo hi r1 n r2 n' :
  py_range lo hi = r1 ++ n :: r2 -> In n' (py_range lo hi) -> n' < n -> In n' r1.
Proof.
  intros Hr Hin Hlt. destruct (py_range_split _ _ _ _ _ Hr) as [_ Hr2].
  rewrite Hr in Hin. apply in_app_or in Hin as [Hin|[->|Hin]]; [done | lia |].
  rewrite Hr2 in Hin. apply py_range_spec in Hin. lia.
Qed.

(** ** Folds and the sequences they pick *)

Lemma fold_bounds (n k i : nat) :
  (i < k)%nat -> (fold_start n k i + fold_size n k i <= n)%nat.
Proof.
  intros Hi. unfold fold_start, fold_size.
  assert (k <> 0%nat) as Hk by lia.
  pose proof (Nat.div_mod_eq n k) as Hdiv.
  pose proof (Nat.mod_upper_bound n k Hk) as Hmod.
  destruct (Nat.ltb_spec i (n mod k)); nia.
Qed.

Lemma kfold_indices_valid (n k i : nat) :
  (i < k)%nat ->
  Forall (fun j => (j < n)%nat) (fst (kfold_indices n k i)) /\
  Forall (fun j => (j < n)%nat) (snd (kfold_indices n k i)).
Proof.
  intros Hi. pose proof (fold_bounds n k i Hi) as Hb.
  unfold kfold_indices. simpl. rewrite !Forall_forall. split.
  - intros j Hj. apply elem_of_app in Hj as [Hj|Hj]; apply elem_of_seq in Hj; lia.
  - intros j Hj. apply elem_of_seq in Hj. lia.
Qed.

Lemma KFold_split_valid (kf : KFold) (n : nat) folds :
  KFold_split kf n = Ok folds ->
  forall tr te, In (tr, te) folds ->
    Forall (fun j => (j < n)%nat) tr /\ Forall (fun j => (j < n)%nat) te.
Proof.
  unfold KFold_split. destruct (_ <? _); [done|]. intros [= <-] tr te Hin.
  apply in_map_iff in Hin as (i & Hi & Hin). apply in_seq in Hin.
  destruct (kfold_indices_valid n (Z.to_nat (n_splits kf)) i) as [H1 H2]; [lia|].
  rewrite Hi in H1, H2. done.
Qed.

(** With at least one split there is a last fold. *)
Lemma KFold_split_last (kf : KFold) (n : nat) folds :
  KFold_split kf n = Ok folds -> 1 <= n_splits kf ->
  exists before tr te, folds = before ++ [(tr, te)].
Proof.
  unfold KFold_split. destruct (_ <? _); [done|]. intros [= <-] Hk.
  destruct (Z.to_nat (n_splits kf)) as [|k] eqn:Ek; [lia|].
  rewrite seq_S, map_app. simpl.
  destruct (kfold_indices n (S k) k) as [tr te]. eauto.
Qed.

Lemma KFold_init_Ok (k : Z) (kf : KFold) :
  KFold_init k = Ok kf -> n_splits kf = k /\ 2 <= k.
Proof.
  unfold KFold_init. destruct (Z.leb_spec k 1); [done|]. intros [= <-]. simpl. lia.
Qed.

Lemma pick_sequences_Ok (idx : list nat) (seqs : list sequence) :
  Forall (fun j => (j < length seqs)%nat) idx ->
  exists l, pick_sequences idx seqs = Ok l.
Proof.
  induction 1 as [|j idx Hj _ [l IH]]; simpl; [eauto|].
  destruct (lookup_lt_is_Some_2 seqs j Hj) as [x ->]. rewrite IH. simpl. eauto.
Qed.

Lemma combine_sequences_Ok (idx : list nat) (seqs : list sequence) :
  Forall (fun j => (j < length seqs)%nat) idx ->
  exists d, combine_sequences idx seqs = Ok d.
Proof.
  intros H. unfold combine_sequences.
  destruct (pick_sequences_Ok idx seqs H) as [l ->]. simpl. eauto.
Qed.

(** ** The selectors *)

Section SelectorProperties.

Context {P : Type} `{Ext : External P}.

(** *** base_model *)

Lemma base_model_cases (self : ModelSelector) (n : Z) :
  base_model self n =
  match snd (hmm_fit (new_hmm self n) (X self, lengths self)) with
  | None =>
      Ok (Some (with_fitted (new_hmm self n)
                  (fst (hmm_fit (new_hmm self n) (X self, lengths self)))))
  | Some _ => Ok None
  end.
Proof.
  unfold base_model, fit_value.
  destruct (hmm_fit _ _) as [p [e|]]; reflexivity.
Qed.

Lemma base_model_total (self : ModelSelector) (n : Z) :
  exists model, base_model self n = Ok model.
Proof. rewrite base_model_cases. destruct (snd _); eauto. Qed.

Lemma base_model_n_components (self : ModelSelector) (n : Z) (m : GaussianHMM P) :
  base_model self n = Ok (Some m) -> n_components m = n.
Proof.
  rewrite base_model_cases. destruct (snd _); [done|].
  by intros [= <-].
Qed.

(** *** SelectorBIC *)

Lemma bic_p_agrees n d : bic_p n d = bic_p_spec n d.
Proof. unfold bic_p, bic_p_spec. lia. Qed.

Lemma bic_step_keep_best (self : ModelSelector) st n :
  bic_step self st n = Ok (keep_best flt st (bic_candidate self n)).
Proof.
  unfold bic_step. destruct (bic_candidate self n) as [[b model]|e]; reflexivity.
Qed.

Lemma bic_candidate_model (self : ModelSelector) n b model :
  bic_candidate self n = Ok (b, model) ->
  exists m, model = Some m /\ base_model self n = Ok (Some m).
Proof.
  unfold bic_candidate. destruct (base_model self n) as [[m|]|e]; simpl; [| done | done].
  intros H. exists m.
  destruct (hmm_score m _); simpl in H; [|done].
  destruct (first_row _); simpl in H; [|done].
  destruct (py_math_log _); simpl in H; [|done].
  destruct (bic_value _ _ _); simpl in H; [|done].
  by injection H as _ <-.
Qed.

Lemma SelectorBIC_select_fold (self : ModelSelector) :
  SelectorBIC_select self =
  Ok (snd (fold_left (keep_best flt)
             (map (bic_candidate self)
                  (py_range (min_n_components self) (max_n_components self + 1)))
             (inf, None))).
Proof.
  unfold SelectorBIC_select.
  rewrite (for_loop_total _ _ (fun st n => keep_best flt st (bic_candidate self n)))
    by apply bic_step_keep_best.
  simpl. by rewrite fold_left_keep_best_map.
Qed.

(** C1 (amended).  A candidate whose fit and scoring succeed gets the score
    [-2 * logL + p * log N] with [p = (n - 1) + n (n - 1) + 2 n d], [N] the
    row count of the training matrix and [d] the width of its first row.
    [select] returns the first candidate whose score is strictly below
    [+inf] and which no candidate's score is strictly below; it returns
    [None] exactly when no candidate has a score strictly below [+inf]. *)
Theorem SelectorBIC_select_minimum (self : ModelSelector) :
  let range := py_range (min_n_components self) (max_n_components self + 1) in
  (forall n m logL x0 rest,
      base_model self n = Ok (Some m) ->
      hmm_score m (X self, lengths self) = Ok logL ->
      X self = x0 :: rest ->
      bic_candidate self n =
      (BIC <- bic_value logL (bic_p_spec n (Z.of_nat (length x0)))
                (math_log (Z.of_nat (length (X self)))) ;;
       Ok (BIC, Some m))) /\
  exists best,
    SelectorBIC_select self = Ok best /\
    match best with
    | None =>
        forall n b model,
          In n range -> bic_candidate self n = Ok (b, model) -> flt b inf = false
    | Some m =>
        exists n b,
          In n range /\ bic_candidate self n = Ok (b, Some m) /\
          flt b inf = true /\
          (forall n' b' model',
              In n' range -> bic_candidate self n' = Ok (b', model') ->
              flt b' b = false) /\
          (forall n' b' model',
              In n' range -> n' < n -> bic_candidate self n' = Ok (b', model') ->
              is_nan b' = false -> flt b b' = true)
    end.
Proof.
  intros range. split.
  - intros n m logL x0 rest Hm HL HX. unfold bic_candidate.
    rewrite Hm. simpl. rewrite HL. simpl. rewrite HX. simpl.
    rewrite bic_p_agrees. unfold py_math_log.
    destruct (Z.leb_spec (Z.of_nat (S (length rest))) 0) as [Hle|_]; [lia|].
    reflexivity.
  - rewrite SelectorBIC_select_fold. fold range.
    destruct (keep_best_fold flt flt_irrefl flt_trans flt_weak
                (map (bic_candidate self) range) inf None)
      as [[-> Hall]|(l1 & s & a & l2 & Hsplit & -> & Hb & Hall & Hfirst)].
    + exists None. split; [done|]. intros n b model Hin Hc.
      apply (Hall b model). rewrite <- Hc. by apply in_map.
    + exists a. split; [done|].
      apply map_eq_app in Hsplit as (r1 & r2' & Hr & <- & Hr2).
      apply map_eq_cons in Hr2 as (n & r2 & -> & Hn & <-).
      destruct (bic_candidate_model _ _ _ _ Hn) as (m & -> & _).
      exists n, s. split; [rewrite Hr; apply in_elt|].
      split; [done|]. split; [done|]. split.
      * intros n' b' model' Hin Hc. apply (Hall b' model').
        rewrite <- Hc. by apply in_map.
      * intros n' b' model' Hin Hlt Hc Hnan. apply (Hfirst b' model'); [|done].
        rewrite <- Hc. apply in_map. by apply (py_range_before _ _ _ _ _ _ Hr).
Qed.

(** *** SelectorDIC *)

(** With no other word in [hwords] the accumulation loop changes nothing. *)
Lemma dic_others_alone (self : ModelSelector) (m : GaussianHMM P)
  (l : list (string * Xlengths)) acc :
  (forall w, In w (keys l) -> w = this_word self) ->
  for_loop l (dic_others_step self m) acc = Ok acc.
Proof.
  revert acc. induction l as [|[w xl] l IH]; intros acc Hall; simpl; [done|].
  unfold dic_others_step at 1. simpl.
  destruct (decide (w <> this_word self)) as [Hne|_].
  - exfalso. apply Hne, Hall. by left.
  - simpl. apply IH. intros w' Hw'. apply Hall. by right.
Qed.

(** If scoring some other word raises, the accumulation loop raises. *)
Lemma dic_others_raises (self : ModelSelector) (m : GaussianHMM P)
  (l : list (string * Xlengths)) acc w xl e :
  In w (keys l) -> w <> this_word self ->
  dict_get (hwords self) w = Ok xl -> hmm_score m xl = Raise e ->
  exists e', for_loop l (dic_others_step self m) acc = Raise e'.
Proof.
  intros Hin Hne Hget Hsc. revert acc.
  induction l as [|[w0 xl0] l IH]; intros acc; [done|]. simpl.
  destruct (dic_others_step self m acc (w0, xl0)) as [acc'|e0] eqn:Hstep; simpl;
    [|eauto].
  destruct Hin as [Hw|Hin]; [|by apply IH].
  simpl in Hw. subst w0. unfold dic_others_step in Hstep. simpl in Hstep.
  destruct (decide (w <> this_word self)); [|done].
  rewrite Hget in Hstep. simpl in Hstep. by rewrite Hsc in Hstep.
Qed.

Lemma dic_step_total (self : ModelSelector) st n :
  exists st', dic_step self st n = Ok st'.
Proof. unfold dic_step. destruct (_ <- _ ;; _); simpl; eauto. Qed.

Lemma dic_step_None (self : ModelSelector) st n :
  base_model self n = Ok None -> dic_step self st n = Ok st.
Proof. intros H. unfold dic_step. by rewrite H. Qed.

Lemma dic_step_raise (self : ModelSelector) st n m e :
  base_model self n = Ok (Some m) -> dic_candidate self m = Raise e ->
  dic_step self st n = Ok st.
Proof. intros H Hc. unfold dic_step. rewrite H. simpl. by rewrite Hc. Qed.

Lemma SelectorDIC_select_skip (self : ModelSelector) n r1 r2 :
  (forall st, dic_step self st n = Ok st) ->
  py_range (min_n_components self) (max_n_components self + 1) = r1 ++ n :: r2 ->
  SelectorDIC_select self =
  (st <- for_loop (r1 ++ r2) (dic_step self) (neg_inf, None) ;; Ok (snd st)).
Proof.
  intros Hn Hr. unfold SelectorDIC_select. rewrite Hr.
  by rewrite (for_loop_skip r1 r2 n _ _ Hn).
Qed.

(** C6.  When [hwords] holds no word other than the target, the division
    [sum_anti_logL / word_count] is [0 / 0] for every state count whose fit
    and own scoring succeed; the [ZeroDivisionError] is swallowed, no state
    count updates the best model, and [select] returns [None]. *)
Theorem SelectorDIC_select_alone (self : ModelSelector) :
  (forall w, In w (keys (hwords self)) -> w = this_word self) ->
  (forall n m logL,
      base_model self n = Ok (Some m) ->
      hmm_score m (X self, lengths self) = Ok logL ->
      dic_candidate self m = Raise ZeroDivisionError) /\
  (forall st n, dic_step self st n = Ok st) /\
  SelectorDIC_select self = Ok None.
Proof.
  intros Halone.
  assert (forall m, exists e, dic_candidate self m = Raise e) as Hraise.
  { intros m. unfold dic_candidate, dic_others.
    destruct (hmm_score m _); simpl; [|eauto].
    rewrite (dic_others_alone self m _ _ Halone). simpl. eauto. }
  assert (forall st n, dic_step self st n = Ok st) as Hstep.
  { intros st n. destruct (base_model_total self n) as [[m|] Hm].
    - destruct (Hraise m) as [e He]. by apply (dic_step_raise _ _ _ m e).
    - by apply dic_step_None. }
  repeat split; [|done|].
  - intros n m logL _ HL. unfold dic_candidate, dic_others. rewrite HL. simpl.
    by rewrite (dic_others_alone self m _ _ Halone).
  - unfold SelectorDIC_select.
    rewrite (for_loop_total _ _ (fun st _ => st)) by done.
    simpl. by induction (py_range _ _).
Qed.

(** C9.  A state count whose fit fails, or whose model fails to score the
    target's own data or the data of any one other word, leaves the best
    score and best model untouched, and the search goes on as if that state
    count were not in the range. *)
Theorem SelectorDIC_drops_candidate (self : ModelSelector) (n : Z) :
  (base_model self n = Ok None \/
   exists m e,
     base_model self n = Ok (Some m) /\
     (hmm_score m (X self, lengths self) = Raise e \/
      exists w xl, In w (keys (hwords self)) /\ w <> this_word self /\
                   dict_get (hwords self) w = Ok xl /\ hmm_score m xl = Raise e)) ->
  (forall st, dic_step self st n = Ok st) /\
  (forall r1 r2 st,
      for_loop (r1 ++ n :: r2) (dic_step self) st =
      for_loop (r1 ++ r2) (dic_step self) st) /\
  (forall r1 r2,
      py_range (min_n_components self) (max_n_components self + 1) = r1 ++ n :: r2 ->
      SelectorDIC_select self =
      (st <- for_loop (r1 ++ r2) (dic_step self) (neg_inf, None) ;; Ok (snd st))).
Proof.
  intros Hfail.
  assert (forall st, dic_step self st n = Ok st) as Hstep.
  { intros st. destruct Hfail as [Hnone|(m & e & Hm & Hsc)].
    - by apply dic_step_None.
    - assert (exists e', dic_candidate self m = Raise e') as [e' He'].
      { unfold dic_candidate. destruct Hsc as [Hsc|(w & xl & Hin & Hne & Hget & Hsc)].
        - rewrite Hsc. simpl. eauto.
        - destruct (hmm_score m (X self, lengths self)); simpl; [|eauto].
          destruct (dic_others_raises self m (hwords self) (PyInt 0, 0) w xl e
                      Hin Hne Hget Hsc) as [e' He'].
          unfold dic_others. rewrite He'. simpl. eauto. }
      by apply (dic_step_raise _ _ _ m e'). }
  split; [done|]. split.
  - intros r1 r2 st. by apply for_loop_skip.
  - intros r1 r2. by apply SelectorDIC_select_skip.
Qed.

(** *** SelectorCV: the store against the object it refits *)

Abbreviation heap := (list (GaussianHMM P)) (only parsing).
Abbreviation ref := nat (only parsing).

Lemma with_fitted_n_components (o : GaussianHMM P) p :
  n_components (with_fitted o p) = n_components o.
Proof. reflexivity. Qed.

Lemma cv_fold_obj_n_components (self : ModelSelector) o split :
  n_components (fst (cv_fold_obj self o split)) = n_components o.
Proof.
  unfold cv_fold_obj.
  destruct (combine_sequences (fst split) _); [|done].
  destruct (combine_sequences (snd split) _); [|done].
  destruct (snd (hmm_fit _ _)); [done|]. by destruct (hmm_score _ _).
Qed.

Lemma cv_folds_obj_n_components (self : ModelSelector) o folds :
  n_components (fst (cv_folds_obj self o folds)) = n_components o.
Proof.
  revert o. induction folds as [|f fs IH]; intros o; simpl; [done|].
  by rewrite IH, cv_fold_obj_n_components.
Qed.

(** One fold, run on the store, does to the object behind [r] what
    [cv_fold_obj] says, and touches nothing else. *)
Lemma cv_fold_store (self : ModelSelector) (r : ref) o split logLs (h : heap) :
  h !! r = Some o ->
  cv_fold self (Some r) logLs split h =
  (Ok (match snd (cv_fold_obj self o split) with
       | Some logL => logLs ++ [logL]
       | None => logLs
       end),
   <[r := fst (cv_fold_obj self o split)]> h).
Proof.
  intros Hr. destruct split as [tr te].
  unfold cv_fold, cv_fold_obj, mtry, mbind, lift, mret. simpl.
  destruct (combine_sequences tr _) as [train|e1]; simpl;
    [|by rewrite list_insert_id].
  destruct (combine_sequences te _) as [test|e2]; simpl;
    [|by rewrite list_insert_id].
  unfold fit_ref, score_ref. rewrite Hr.
  destruct (hmm_fit o train) as [p [e|]]; simpl; [done|].
  rewrite list_lookup_insert_eq by (by eapply lookup_lt_Some).
  by destruct (hmm_score _ test).
Qed.

Lemma cv_folds_store (self : ModelSelector) (r : ref) folds o logLs (h : heap) :
  h !! r = Some o ->
  mfor folds (cv_fold self (Some r)) logLs h =
  (Ok (logLs ++ snd (cv_folds_obj self o folds)),
   <[r := fst (cv_folds_obj self o folds)]> h).
Proof.
  revert o logLs h. induction folds as [|f fs IH]; intros o logLs h Hr; simpl.
  - unfold mret. by rewrite app_nil_r, list_insert_id.
  - unfold mbind. rewrite (cv_fold_store self r o f logLs h Hr).
    rewrite (IH (fst (cv_fold_obj self o f)))
      by (apply list_lookup_insert_eq; by eapply lookup_lt_Some).
    rewrite list_insert_insert_eq.
    destruct (snd (cv_fold_obj self o f)); [|done].
    by rewrite <- app_assoc.
Qed.

(** With [model = None] every fold raises [AttributeError] at the latest and
    nothing is collected. *)
Lemma cv_folds_no_model (self : ModelSelector) folds logLs (h : heap) :
  mfor folds (cv_fold self None) logLs h = (Ok logLs, h).
Proof.
  induction folds as [|[tr te] fs IH]; simpl; [done|].
  unfold mbind. unfold cv_fold at 1. unfold mtry, mbind, lift, mret, fit_ref.
  destruct (combine_sequences tr _); simpl; [|apply IH].
  destruct (combine_sequences te _); simpl; apply IH.
Qed.

(** One pass of the loop over the state counts, in full. *)
Lemma cv_step_spec (self : ModelSelector) kf st n (h : heap) :
  cv_step self kf st n h =
  match base_model self n with
  | Ok (Some o) =>
      match KFold_split kf (length (sequences self)) with
      | Ok folds =>
          let mean_score := np_mean (snd (cv_folds_obj self o folds)) in
          (Ok (if fgt mean_score (fst st)
               then (mean_score, Some (length h)) else st),
           h ++ [fst (cv_folds_obj self o folds)])
      | Raise _ => (Ok st, h ++ [o])
      end
  | _ => (Ok st, h)
  end.
Proof.
  unfold cv_step, mtry, mbind, base_model_ref, lift, mbind, new_object, mret.
  destruct (base_model self n) as [[o|]|e]; simpl; [| |done].
  - destruct (KFold_split kf _) as [folds|e]; simpl; [|done].
    rewrite (cv_folds_store self (length h) folds o [] (h ++ [o]))
      by apply list_lookup_middle, eq_refl.
    simpl. f_equal.
    replace (length h) with (length h + 0)%nat at 1 by lia.
    by rewrite insert_app_r.
  - destruct (KFold_split kf _) as [folds|e]; simpl; [|done].
    rewrite cv_folds_no_model. by rewrite np_mean_nil, fgt_nan_l.
Qed.

Lemma cv_folds_obj_snoc (self : ModelSelector) o before f :
  fst (cv_folds_obj self o (before ++ [f])) =
  fst (cv_fold_obj self (fst (cv_folds_obj self o before)) f).
Proof.
  revert o. induction before as [|g before IH]; intros o; simpl; [done | apply IH].
Qed.

Lemma mfor_cv_step (self : ModelSelector) kf (I : float * option ref -> heap -> Prop)
  (l : list Z) st (h : heap) :
  I st h ->
  (forall st h n, In n l -> I st h ->
     exists st' h', cv_step self kf st n h = (Ok st', h') /\ I st' h') ->
  exists st' h', mfor l (cv_step self kf) st h = (Ok st', h') /\ I st' h'.
Proof.
  intros Hst Hstep. revert st h Hst.
  induction l as [|n l IH]; intros st h Hst; simpl.
  - unfold mret. eauto.
  - unfold mbind. destruct (Hstep st h n) as (st1 & h1 & -> & Hst1); [by left|done|].
    apply IH; [|done]. intros ? ? ? ?. apply Hstep. by right.
Qed.

(** What a returned reference stands for: the object made for some state
    count of the range, after all folds, at least one of which was scored. *)
Lemma SelectorCV_select_returns (self : ModelSelector) (h0 : heap) r h :
  SelectorCV_select self h0 = (Ok (Some r), h) ->
  exists kf n o0 folds,
    KFold_init (Z.min (Z.of_nat (length (sequences self))) 3) = Ok kf /\
    KFold_split kf (length (sequences self)) = Ok folds /\
    In n (py_range (min_n_components self) (max_n_components self + 1)) /\
    base_model self n = Ok (Some o0) /\
    h !! r = Some (fst (cv_folds_obj self o0 folds)) /\
    snd (cv_folds_obj self o0 folds) <> [].
Proof.
  unfold SelectorCV_select, mbind, lift, mret.
  destruct (KFold_init _) as [kf|e] eqn:Hkf; [|done].
  set (range := py_range _ _).
  set (I := fun (st : float * option ref) (h : heap) =>
              match snd st with
              | None => True
              | Some r =>
                  exists n o0 folds,
                    KFold_split kf (length (sequences self)) = Ok folds /\
                    In n range /\ base_model self n = Ok (Some o0) /\
                    h !! r = Some (fst (cv_folds_obj self o0 folds)) /\
                    snd (cv_folds_obj self o0 folds) <> []
              end).
  destruct (mfor_cv_step self kf I range (neg_inf, None) h0) as (st' & h' & -> & Hinv).
  { done. }
  { intros st h1 n Hn Hst. rewrite cv_step_spec.
    destruct (base_model self n) as [[o|]|e] eqn:Hbm; [|eauto|eauto].
    destruct (KFold_split kf _) as [folds|e] eqn:Hsp.
    - simpl. eexists _, _. split; [done|].
      destruct (fgt _ (fst st)) eqn:Hgt.
      + unfold I. simpl. exists n, o, folds. repeat split; try done.
        * apply list_lookup_middle. done.
        * intros Hnil. rewrite Hnil, np_mean_nil in Hgt. done.
      + unfold I in *. destruct (snd st) as [r0|]; [|done].
        destruct Hst as (n0 & o0 & folds0 & ? & ? & ? & Hl & ?).
        exists n0, o0, folds0.
        repeat split; first [done | by apply lookup_app_l_Some].
    - simpl. eexists _, _. split; [done|].
      unfold I in *. destruct (snd st) as [r0|]; [|done].
      destruct Hst as (n0 & o0 & folds0 & ? & ? & ? & Hl & ?).
      exists n0, o0, folds0.
      repeat split; first [done | by apply lookup_app_l_Some]. }
  intros [= Hr <-]. unfold I in Hinv. rewrite Hr in Hinv.
  destruct Hinv as (n & o0 & folds & ? & ? & ? & ? & ?).
  exists kf, n, o0, folds. done.
Qed.

Lemma mfor_app {A S : Type} (l1 l2 : list A) (body : S -> A -> M (P := P) S) s
  (h : heap) :
  mfor (l1 ++ l2) body s h =
  match mfor l1 body s h with
  | (Ok s', h') => mfor l2 body s' h'
  | (Raise e, h') => (Raise e, h')
  end.
Proof.
  revert s h. induction l1 as [|a l1 IH]; intros s h; simpl; [done|].
  unfold mbind. destruct (body s a h) as [[s1|e] h1]; [apply IH | done].
Qed.

Lemma mfor_skip {A S : Type} (l1 l2 : list A) (a : A)
  (body : S -> A -> M (P := P) S) s (h : heap) :
  (forall s h, body s a h = (Ok s, h)) ->
  mfor (l1 ++ a :: l2) body s h = mfor (l1 ++ l2) body s h.
Proof.
  intros Ha. rewrite !mfor_app. destruct (mfor l1 body s h) as [[s1|e] h1]; [|done].
  simpl. unfold mbind. by rewrite Ha.
Qed.

(** C3 (the code departs from it).  With fewer than two training sequences
    [KFold(min(len(self.sequences), 3))] is [KFold(0)] or [KFold(1)]; the
    constructor raises [ValueError] before the first [try], so [select]
    raises it to its caller. *)
Theorem SelectorCV_select_few_sequences (self : ModelSelector) (h : heap) :
  (length (sequences self) < 2)%nat ->
  SelectorCV_select self h = (Raise ValueError, h).
Proof.
  intros Hlen. unfold SelectorCV_select, mbind, lift, KFold_init.
  destruct (Z.leb_spec (Z.min (Z.of_nat (length (sequences self))) 3) 1); [done | lia].
Qed.

(** C7.  A state count none of whose folds yields a log-likelihood has the
    mean of the empty list, NaN, as its score; [NaN > max_score] is false, so
    the pass leaves the best score and best model untouched.  Whatever
    [select] returns is the object of a state count with at least one
    scored fold. *)
Theorem SelectorCV_skips_unscored_candidate (self : ModelSelector) :
  (forall kf st n (h : heap),
      (forall o folds,
          base_model self n = Ok (Some o) ->
          KFold_split kf (length (sequences self)) = Ok folds ->
          snd (cv_folds_obj self o folds) = []) ->
      fst (cv_step self kf st n h) = Ok st) /\
  (forall (h0 : heap) r h,
      SelectorCV_select self h0 = (Ok (Some r), h) ->
      exists kf n o0 folds o,
        KFold_init (Z.min (Z.of_nat (length (sequences self))) 3) = Ok kf /\
        KFold_split kf (length (sequences self)) = Ok folds /\
        base_model self n = Ok (Some o0) /\
        h !! r = Some o /\ n_components o = n /\
        snd (cv_folds_obj self o0 folds) <> []).
Proof.
  split.
  - intros kf st n h Hnone. rewrite cv_step_spec.
    destruct (base_model self n) as [[o|]|e]; [|done|done].
    destruct (KFold_split kf _) as [folds|e]; [|done].
    simpl. by rewrite (Hnone o folds), np_mean_nil, fgt_nan_l.
  - intros h0 r h Hsel.
    destruct (SelectorCV_select_returns self h0 r h Hsel)
      as (kf & n & o0 & folds & Hkf & Hsp & Hn & Hbm & Hr & Hne).
    exists kf, n, o0, folds, (fst (cv_folds_obj self o0 folds)).
    repeat split; try done.
    rewrite cv_folds_obj_n_components. by apply (base_model_n_components self).
Qed.

(** C10 (amended).  A model returned by [SelectorCV.select] is the object
    [base_model] built for a state count of the range, refitted in place by
    every fold in turn: its parameters are the ones the refit call of the
    last fold, on that fold's training subset, left in it, and at least one
    fold of that state count was refitted and scored. *)
Theorem SelectorCV_returns_last_refit (self : ModelSelector) (h0 : heap) r h :
  SelectorCV_select self h0 = (Ok (Some r), h) ->
  exists kf n o0 before tr te train o_prev,
    KFold_init (Z.min (Z.of_nat (length (sequences self))) 3) = Ok kf /\
    KFold_split kf (length (sequences self)) = Ok (before ++ [(tr, te)]) /\
    In n (py_range (min_n_components self) (max_n_components self + 1)) /\
    base_model self n = Ok (Some o0) /\
    combine_sequences tr (sequences self) = Ok train /\
    o_prev = fst (cv_folds_obj self o0 before) /\
    h !! r = Some (with_fitted o_prev (fst (hmm_fit o_prev train))) /\
    snd (cv_folds_obj self o0 (before ++ [(tr, te)])) <> [].
Proof.
  intros Hsel.
  destruct (SelectorCV_select_returns self h0 r h Hsel)
    as (kf & n & o0 & folds & Hkf & Hsp & Hn & Hbm & Hr & Hne).
  destruct (KFold_init_Ok _ _ Hkf) as [Hk Hk2].
  destruct (KFold_split_last kf _ folds Hsp) as (before & tr & te & ->); [lia|].
  destruct (KFold_split_valid kf _ _ Hsp tr te) as [Htr Hte];
    [apply in_elt|].
  destruct (combine_sequences_Ok tr _ Htr) as [train Htrain].
  destruct (combine_sequences_Ok te _ Hte) as [test Htest].
  exists kf, n, o0, before, tr, te, train, (fst (cv_folds_obj self o0 before)).
  repeat split; try done.
  rewrite Hr, cv_folds_obj_snoc. f_equal.
  unfold cv_fold_obj. simpl. rewrite Htrain, Htest.
  destruct (snd (hmm_fit _ train)); [done|]. by destruct (hmm_score _ test).
Qed.

Lemma bic_step_total (self : ModelSelector) st n :
  exists st', bic_step self st n = Ok st'.
Proof. rewrite bic_step_keep_best. eauto. Qed.

Lemma cv_step_total (self : ModelSelector) kf st n (h : heap) :
  exists st' h', cv_step self kf st n h = (Ok st', h').
Proof.
  rewrite cv_step_spec. destruct (base_model self n) as [[o|]|e]; eauto.
  destruct (KFold_split kf _); simpl; eauto.
Qed.

Lemma cv_step_total_True (self : ModelSelector) kf st n (h : heap) :
  exists st' h', cv_step self kf st n h = (Ok st', h') /\ True.
Proof. destruct (cv_step_total self kf st n h) as (st' & h' & ->). eauto. Qed.

(** The loops of the three searching selectors never raise. *)
Lemma for_loop_Ok {A S : Type} (l : list A) (body : S -> A -> result S) s :
  (forall s a, exists s', body s a = Ok s') -> exists s', for_loop l body s = Ok s'.
Proof.
  intros Hb. revert s. induction l as [|a l IH]; intros s; simpl; [eauto|].
  destruct (Hb s a) as [s1 ->]. simpl. apply IH.
Qed.

Lemma in_search_range_None (self : ModelSelector) :
  in_search_range self (None : option (GaussianHMM P)).
Proof. intros m [=]. Qed.

Lemma bic_step_in_range (self : ModelSelector) st n st' :
  In n (py_range (min_n_components self) (max_n_components self + 1)) ->
  in_search_range self (snd st) -> bic_step self st n = Ok st' ->
  in_search_range self (snd st').
Proof.
  intros Hn%py_range_spec Hst. rewrite bic_step_keep_best. intros [= <-].
  destruct (bic_candidate self n) as [[b model]|e] eqn:Hc; simpl; [|done].
  destruct (flt b (fst st)); [|done]. simpl.
  destruct (bic_candidate_model _ _ _ _ Hc) as (m & -> & Hm).
  intros ? [= <-]. rewrite (base_model_n_components _ _ _ Hm). lia.
Qed.

Lemma dic_step_in_range (self : ModelSelector) st n st' :
  In n (py_range (min_n_components self) (max_n_components self + 1)) ->
  in_search_range self (snd st) -> dic_step self st n = Ok st' ->
  in_search_range self (snd st').
Proof.
  intros Hn%py_range_spec Hst. unfold dic_step.
  destruct (base_model self n) as [[m|]|e] eqn:Hm; simpl;
    [|by intros [= <-] | by intros [= <-]].
  destruct (dic_candidate self m) as [DIC|e]; simpl; [|by intros [= <-]].
  destruct (fgt DIC (fst st)); intros [= <-]; [|done]. simpl.
  intros ? [= <-]. rewrite (base_model_n_components _ _ _ Hm). lia.
Qed.

(** C5.  What each [select] returns is [None] or a model with a state count
    in [[min_n_components, max_n_components]]; for [SelectorConstant] the
    state count is [n_constant].  The three selectors without folds always
    return; [SelectorCV] returns whenever there are two sequences or more. *)
Theorem select_state_count (self : ModelSelector) :
  ((exists model, SelectorConstant_select self = Ok model) /\
   forall m, SelectorConstant_select self = Ok (Some m) ->
             n_components m = n_constant self) /\
  ((exists model, SelectorBIC_select self = Ok model) /\
   forall m, SelectorBIC_select self = Ok (Some m) ->
             min_n_components self <= n_components m <= max_n_components self) /\
  ((exists model, SelectorDIC_select self = Ok model) /\
   forall m, SelectorDIC_select self = Ok (Some m) ->
             min_n_components self <= n_components m <= max_n_components self) /\
  ((forall h0 : heap, (2 <= length (sequences self))%nat ->
      exists model h, SelectorCV_select self h0 = (Ok model, h)) /\
   forall (h0 : heap) r h,
     SelectorCV_select self h0 = (Ok (Some r), h) ->
     exists m, h !! r = Some m /\
               min_n_components self <= n_components m <= max_n_components self).
Proof.
  split; [|split; [|split]].
  - split; [apply base_model_total | apply base_model_n_components].
  - unfold SelectorBIC_select. split.
    + destruct (for_loop_Ok (py_range (min_n_components self) (max_n_components self + 1))
                  (bic_step self) (inf, None)) as [st ->];
        [intros; apply bic_step_total | simpl; eauto].
    + intros m.
      destruct (for_loop _ _ _) as [st|e] eqn:Hloop; simpl; [|done].
      intros [= Hm]. revert m Hm.
      refine (for_loop_invariant (fun st => in_search_range self (snd st))
                _ (bic_step self) (inf, None) (in_search_range_None self) _ st Hloop).
      intros; by eapply bic_step_in_range.
  - unfold SelectorDIC_select. split.
    + destruct (for_loop_Ok (py_range (min_n_components self) (max_n_components self + 1))
                  (dic_step self) (neg_inf, None)) as [st ->];
        [intros; apply dic_step_total | simpl; eauto].
    + intros m.
      destruct (for_loop _ _ _) as [st|e] eqn:Hloop; simpl; [|done].
      intros [= Hm]. revert m Hm.
      refine (for_loop_invariant (fun st => in_search_range self (snd st))
                _ (dic_step self) (neg_inf, None) (in_search_range_None self) _ st Hloop).
      intros; by eapply dic_step_in_range.
  - split.
    + intros h0 Hlen. unfold SelectorCV_select, mbind, lift, mret, KFold_init.
      destruct (Z.leb_spec (Z.min (Z.of_nat (length (sequences self))) 3) 1); [lia|].
      destruct (mfor_cv_step self {| n_splits := Z.min (Z.of_nat (length (sequences self))) 3 |}
                  (fun _ _ => True)
                  (py_range (min_n_components self) (max_n_components self + 1))
                  (neg_inf, None) h0) as (st & h & -> & _); [done| |eauto].
      intros st h n _ _. apply cv_step_total_True.
    + intros h0 r h Hsel.
      destruct (SelectorCV_select_returns self h0 r h Hsel)
        as (kf & n & o0 & folds & Hkf & Hsp & Hn & Hbm & Hr & Hne).
      exists (fst (cv_folds_obj self o0 folds)). split; [done|].
      rewrite cv_folds_obj_n_components, (base_model_n_components _ _ _ Hbm).
      apply py_range_spec in Hn. lia.
Qed.

(** C8.  When the library's [fit] raises for a state count, [base_model]
    returns [None]; [SelectorConstant] then returns [None], and a pass of the
    BIC, DIC or CV loop over that state count changes nothing, so each search
    runs on as if the state count were not in its range. *)
Theorem fit_failure_is_swallowed (self : ModelSelector) (n : Z) (p : P) (e : exn) :
  hmm_fit (new_hmm self n) (X self, lengths self) = (p, Some e) ->
  base_model self n = Ok None /\
  (n = n_constant self -> SelectorConstant_select self = Ok None) /\
  ((forall st, bic_step self st n = Ok st) /\
   (forall st, dic_step self st n = Ok st) /\
   (forall kf st (h : heap), cv_step self kf st n h = (Ok st, h))) /\
  ((forall r1 r2 st,
       for_loop (r1 ++ n :: r2) (bic_step self) st =
       for_loop (r1 ++ r2) (bic_step self) st) /\
   (forall r1 r2 st,
       for_loop (r1 ++ n :: r2) (dic_step self) st =
       for_loop (r1 ++ r2) (dic_step self) st) /\
   (forall kf r1 r2 st (h : heap),
       mfor (r1 ++ n :: r2) (cv_step self kf) st h =
       mfor (r1 ++ r2) (cv_step self kf) st h)).
Proof.
  intros Hfit.
  assert (base_model self n = Ok None) as Hbm
      by (by rewrite base_model_cases, Hfit).
  assert (forall st, bic_step self st n = Ok st) as Hbic.
  { intros st. unfold bic_step, bic_candidate. by rewrite Hbm. }
  assert (forall st, dic_step self st n = Ok st) as Hdic
      by (intros; by apply dic_step_None).
  assert (forall kf st (h : heap), cv_step self kf st n h = (Ok st, h)) as Hcv.
  { intros kf st h. by rewrite cv_step_spec, Hbm. }
  split; [done|].
  split; [intros Hn; unfold SelectorConstant_select; by rewrite <- Hn|].
  split; [done|].
  split; [|split].
  - intros. by apply for_loop_skip.
  - intros. by apply for_loop_skip.
  - intros. apply mfor_skip. intros. apply Hcv.
Qed.

End SelectorProperties.

(** ** The recognizer *)

Section RecognizerProperties.

Context {P : Type} `{Ext : External P}.

Implicit Types (models : list (string * option (GaussianHMM P))) (xl : Xlengths).

Lemma recognize_step_spec xl d bs bg entry :
  recognize_step xl (d, bs, bg) entry =
  Ok (<[fst entry := recorded (snd entry) xl]> d,
      fst (keep_best fgt (bs, bg) (guess_candidate xl entry)),
      snd (keep_best fgt (bs, bg) (guess_candidate xl entry))).
Proof.
  destruct entry as [item model]. unfold recognize_step, recorded, guess_candidate.
  simpl. destruct (py_score model xl) as [score|e]; simpl; [|done].
  by destruct (fgt score bs).
Qed.

Lemma recognize_loop models xl d bs bg :
  for_loop models (recognize_step xl) (d, bs, bg) =
  Ok (score_table models xl d,
      fst (fold_left (keep_best fgt) (map (guess_candidate xl) models) (bs, bg)),
      snd (fold_left (keep_best fgt) (map (guess_candidate xl) models) (bs, bg))).
Proof.
  revert d bs bg. induction models as [|entry models IH]; intros d bs bg; [done|].
  cbn [for_loop]. rewrite recognize_step_spec. cbn [rbind]. rewrite IH.
  cbn [map fold_left]. unfold score_table. cbn [fold_left].
  by destruct (keep_best fgt (bs, bg) (guess_candidate xl entry)).
Qed.

Lemma recognize_item_spec models xl :
  recognize_item models xl = Ok (score_table models xl ∅, best_guess models xl).
Proof. unfold recognize_item. by rewrite recognize_loop. Qed.

Lemma recognize_loop_items models (l : list Xlengths) ps gs :
  for_loop l
    (fun '(probabilities, guesses) xl =>
       '(dict_probabilities, best_guess) <- recognize_item models xl ;;
       Ok (probabilities ++ [dict_probabilities], guesses ++ [best_guess]))
    (ps, gs) =
  Ok (ps ++ map (fun xl => score_table models xl ∅) l,
      gs ++ map (best_guess models) l).
Proof.
  revert ps gs. induction l as [|xl l IH]; intros ps gs.
  - simpl. by rewrite !app_nil_r.
  - cbn [for_loop]. rewrite recognize_item_spec. cbn [rbind]. rewrite IH.
    cbn [map]. by rewrite <- !app_assoc.
Qed.

Lemma recognize_spec models test_set :
  recognize models test_set =
  Ok (map (fun xl => score_table models xl ∅) (values (get_all_Xlengths test_set)),
      map (best_guess models) (values (get_all_Xlengths test_set))).
Proof. unfold recognize. by rewrite recognize_loop_items. Qed.

(** *** The table of recorded scores *)

Lemma score_table_dom models xl d :
  dom (score_table models xl d) = dom d ∪ list_to_set (keys models).
Proof.
  revert d. induction models as [|[item model] models IH]; intros d; simpl.
  - set_solver.
  - unfold score_table in *. simpl. rewrite IH, dom_insert_L. set_solver.
Qed.

Lemma score_table_notin models xl d item :
  ~ In item (keys models) -> score_table models xl d !! item = d !! item.
Proof.
  revert d. induction models as [|[item' model] models IH]; intros d Hnot; [done|].
  unfold score_table in *. simpl in *. rewrite IH by tauto.
  apply lookup_insert_ne. tauto.
Qed.

Lemma score_table_lookup models xl d item model :
  NoDup (keys models) -> In (item, model) models ->
  score_table models xl d !! item = Some (recorded model xl).
Proof.
  revert d. induction models as [|[item' model'] models IH]; intros d Hnd Hin; [done|].
  simpl in Hnd. apply NoDup_cons in Hnd as [Hnot Hnd].
  change (score_table ((item', model') :: models) xl d)
    with (score_table models xl (<[item' := recorded model' xl]> d)).
  destruct Hin as [[= -> ->]|Hin].
  - rewrite score_table_notin by (by rewrite <- list_elem_of_In).
    apply lookup_insert_eq.
  - by apply IH.
Qed.

Lemma score_table_inv models xl item s :
  NoDup (keys models) -> score_table models xl ∅ !! item = Some s ->
  exists model, In (item, model) models /\ s = recorded model xl.
Proof.
  intros Hnd Hl.
  assert (item ∈ dom (score_table models xl ∅)) as Hdom
      by (apply elem_of_dom; eauto).
  rewrite score_table_dom in Hdom.
  assert (In item (keys models)) as Hin by (apply list_elem_of_In; set_solver).
  apply in_map_iff in Hin as ([item' model] & Heq & Hin). simpl in Heq. subst item'.
  exists model. split; [done|].
  rewrite (score_table_lookup _ _ _ _ _ Hnd Hin) in Hl. by injection Hl.
Qed.

Lemma keys_length {V : Type} (d : list (string * V)) : length (keys d) = length d.
Proof. apply length_map. Qed.

(** C4.  [recognize] returns two lists as long as the test corpus; entry
    [i] of each is what the loop body computes for test item [i]; every
    table has the categories of the mapping as its keys, one entry each, and
    holds the score of each category, or [-inf] where scoring raised. *)
Theorem recognize_shape models (test_set : SinglesData) :
  NoDup (keys models) ->
  exists probabilities guesses,
    recognize models test_set = Ok (probabilities, guesses) /\
    length probabilities = length (get_all_Xlengths test_set) /\
    length guesses = length (get_all_Xlengths test_set) /\
    forall (i : nat) xl,
      values (get_all_Xlengths test_set) !! i = Some xl ->
      exists d g,
        recognize_item models xl = Ok (d, g) /\
        probabilities !! i = Some d /\ guesses !! i = Some g /\
        dom d = list_to_set (keys models) /\
        size d = length models /\
        (forall item model e,
            In (item, model) models -> py_score model xl = Raise e ->
            d !! item = Some neg_inf) /\
        (forall item model score,
            In (item, model) models -> py_score model xl = Ok score ->
            d !! item = Some score).
Proof.
  intros Hnd. rewrite recognize_spec. eexists _, _. split; [done|].
  unfold values. rewrite !length_map. split; [done|]. split; [done|].
  intros i xl Hi. exists (score_table models xl ∅), (best_guess models xl).
  split; [apply recognize_item_spec|].
  split; [by rewrite list_lookup_fmap, Hi|].
  split; [by rewrite list_lookup_fmap, Hi|].
  assert (dom (score_table models xl ∅) = list_to_set (keys models)) as Hdom
      by (rewrite score_table_dom; set_solver).
  split; [done|]. split.
  - rewrite <- size_dom, Hdom, size_list_to_set, keys_length; done.
  - split; intros item model ? Hin Hsc;
      rewrite (score_table_lookup _ _ _ _ _ Hnd Hin); unfold recorded; by rewrite Hsc.
Qed.

Lemma best_guess_spec models xl :
  NoDup (keys models) ->
  match best_guess models xl with
  | None =>
      forall item s, score_table models xl ∅ !! item = Some s -> fgt s neg_inf = false
  | Some best =>
      exists s before after,
        keys models = before ++ best :: after /\
        score_table models xl ∅ !! best = Some s /\
        fgt s neg_inf = true /\
        (forall item s', score_table models xl ∅ !! item = Some s' ->
                         fgt s' s = false) /\
        (forall item s', In item before ->
                         score_table models xl ∅ !! item = Some s' ->
                         is_nan s' = false -> fgt s s' = true)
  end.
Proof.
  intros Hnd. unfold best_guess.
  destruct (keep_best_fold fgt fgt_irrefl fgt_trans fgt_weak
              (map (guess_candidate xl) models) neg_inf None)
    as [[-> Hall]|(l1 & s & g & l2 & Hsplit & -> & Hb & Hall & Hfirst)]; simpl.
  - intros item s Hl.
    destruct (score_table_inv _ _ _ _ Hnd Hl) as (model & Hin & ->).
    unfold recorded. destruct (py_score model xl) as [score|e] eqn:Hsc; [|done].
    apply (Hall score (Some item)).
    apply in_map_iff. exists (item, model). unfold guess_candidate. simpl.
    by rewrite Hsc.
  - apply map_eq_app in Hsplit as (m1 & m2' & Hm & <- & Hm2).
    apply map_eq_cons in Hm2 as ([best model] & m2 & -> & Hc & <-).
    unfold guess_candidate in Hc. simpl in Hc.
    destruct (py_score model xl) as [score|e] eqn:Hsc; [|done].
    simpl in Hc. injection Hc as -> <-.
    exists s, (keys m1), (keys m2). split; [|split; [|split; [done|split]]].
    + rewrite Hm. unfold keys. by rewrite map_app.
    + rewrite (score_table_lookup models xl ∅ best model Hnd)
        by (rewrite Hm; apply in_elt).
      unfold recorded. by rewrite Hsc.
    + intros item s' Hl.
      destruct (score_table_inv _ _ _ _ Hnd Hl) as (model' & Hin & ->).
      unfold recorded. destruct (py_score model' xl) as [score'|e] eqn:Hsc';
        [|apply fgt_neg_inf_l].
      apply (Hall score' (Some item)).
      apply in_map_iff. exists (item, model'). unfold guess_candidate. simpl.
      by rewrite Hsc'.
    + intros item s' Hin Hl Hnan.
      apply in_map_iff in Hin as ([item' model'] & Heq & Hin). simpl in Heq.
      subst item'.
      rewrite (score_table_lookup models xl ∅ item model' Hnd) in Hl
        by (rewrite Hm; apply in_or_app; by left).
      injection Hl as <-. unfold recorded.
      destruct (py_score model' xl) as [score'|e] eqn:Hsc'; [|done].
      apply (Hfirst score' (Some item)).
      * apply in_map_iff. exists (item, model'). unfold guess_candidate. simpl.
        by rewrite Hsc'.
      * unfold recorded in Hnan. by rewrite Hsc' in Hnan.
Qed.

(** C2 (amended).  For every test item the guess is [None] when no
    recorded score is greater than [-inf] (every category failed to score,
    or scored [-inf] or NaN).  Otherwise it is a category whose recorded
    score is greater than [-inf] and not exceeded by any recorded score, and
    it is the first such in the mapping's order: every category before it
    has a smaller recorded score or NaN. *)
Theorem recognize_guess models (test_set : SinglesData) :
  NoDup (keys models) ->
  exists probabilities guesses,
    recognize models test_set = Ok (probabilities, guesses) /\
    forall (i : nat) d,
      probabilities !! i = Some d ->
      exists g,
        guesses !! i = Some g /\
        match g with
        | None => forall item s, d !! item = Some s -> fgt s neg_inf = false
        | Some best =>
            exists s before after,
              keys models = before ++ best :: after /\
              d !! best = Some s /\
              fgt s neg_inf = true /\
              (forall item s', d !! item = Some s' -> fgt s' s = false) /\
              (forall item s', In item before -> d !! item = Some s' ->
                               is_nan s' = false -> fgt s s' = true)
        end.
Proof.
  intros Hnd. rewrite recognize_spec. eexists _, _. split; [done|].
  intros i d Hd. rewrite list_lookup_fmap in Hd.
  destruct (values (get_all_Xlengths test_set) !! i) as [xl|] eqn:Hi; [|done].
  injection Hd as <-. exists (best_guess models xl).
  split; [by rewrite list_lookup_fmap, Hi|].
  by apply best_guess_spec.
Qed.

End RecognizerProperties.

(** ** The theorems at work on small concrete worlds *)

Lemma toy_models_NoDup : NoDup (keys Toy.models).
Proof. apply (bool_decide_unpack (NoDup (keys Toy.models))). vm_compute. exact I. Defined.

(** C1, as first stated, fails: both state counts fit and score, each with
    log-likelihood [-inf] and hence BIC [+inf]; no score is strictly below
    the initial [+inf], and [select] returns [None] although candidates
    succeeded. *)
Lemma SelectorBIC_infinite_scores :
  ~ ((exists n c,
         In n (py_range (min_n_components Toy.three) (max_n_components Toy.three + 1)) /\
         bic_candidate (Ext := Toy.ext neg_inf 9) Toy.three n = Ok c) ->
     exists m, SelectorBIC_select (Ext := Toy.ext neg_inf 9) Toy.three = Ok (Some m)).
Proof.
  intros H. destruct H as [m Hm].
  - exists 2. eexists. split; [vm_compute; auto | vm_compute; reflexivity].
  - vm_compute in Hm. discriminate Hm.
Qed.

(** C2, as first stated, fails: scoring raises for both categories, both
    recorded scores are [-inf], and the guess is [None], not the first
    category. *)
Lemma recognize_all_fail_guess :
  exists d,
    recognize (Ext := Toy.ext (Toy.f (-5)) 3) Toy.models
      {| get_all_Xlengths := [(0, Toy.xl3)] |} = Ok ([d], [None]) /\
    d !! "A" = Some neg_inf /\ d !! "B" = Some neg_inf.
Proof.
  eexists. split; [vm_compute; reflexivity|]. split; vm_compute; reflexivity.
Qed.

Lemma recognize_guess_witness :
  NoDup (keys Toy.models) /\
  exists probabilities guesses,
    recognize (Ext := Toy.ext (Toy.f (-5)) 9) Toy.models Toy.test_set =
    Ok (probabilities, guesses) /\
    forall (i : nat) d,
      probabilities !! i = Some d ->
      exists g,
        guesses !! i = Some g /\
        match g with
        | None => forall item s, d !! item = Some s -> fgt s neg_inf = false
        | Some best =>
            exists s before after,
              keys Toy.models = before ++ best :: after /\
              d !! best = Some s /\
              fgt s neg_inf = true /\
              (forall item s', d !! item = Some s' -> fgt s' s = false) /\
              (forall item s', In item before -> d !! item = Some s' ->
                               is_nan s' = false -> fgt s s' = true)
        end.
Proof.
  split; [exact toy_models_NoDup|].
  exact (recognize_guess (Ext := Toy.ext (Toy.f (-5)) 9) Toy.models Toy.test_set
           toy_models_NoDup).
Defined.

Lemma recognize_shape_witness :
  NoDup (keys Toy.models) /\
  exists probabilities guesses,
    recognize (Ext := Toy.ext (Toy.f (-5)) 3) Toy.models Toy.test_set =
    Ok (probabilities, guesses) /\
    length probabilities = 2%nat /\ length guesses = 2%nat.
Proof.
  split; [exact toy_models_NoDup|].
  destruct (recognize_shape (Ext := Toy.ext (Toy.f (-5)) 3) Toy.models Toy.test_set
              toy_models_NoDup) as (ps & gs & Hrec & Hp & Hg & _).
  exists ps, gs. split; [exact Hrec|]. split; [exact Hp | exact Hg].
Defined.

Lemma SelectorCV_select_few_sequences_witness :
  (length (sequences Toy.single) < 2)%nat /\
  SelectorCV_select (Ext := Toy.ext (Toy.f (-5)) 9) Toy.single [] =
  (Raise ValueError, []).
Proof.
  split; [simpl; lia|].
  apply (SelectorCV_select_few_sequences (Ext := Toy.ext (Toy.f (-5)) 9)).
  simpl. lia.
Defined.

Lemma SelectorDIC_select_alone_witness :
  (forall w, In w (keys (hwords Toy.three)) -> w = this_word Toy.three) /\
  SelectorDIC_select (Ext := Toy.ext (Toy.f (-5)) 9) Toy.three = Ok None.
Proof.
  assert (forall w, In w (keys (hwords Toy.three)) -> w = this_word Toy.three) as H.
  { simpl. intros w [<-|[]]. reflexivity. }
  split; [exact H|].
  apply (SelectorDIC_select_alone (Ext := Toy.ext (Toy.f (-5)) 9) Toy.three H).
Defined.

Lemma fit_failure_is_swallowed_witness :
  hmm_fit (External := Toy.ext_nofit) (new_hmm (Ext := Toy.ext_nofit) Toy.three 3)
    (X Toy.three, lengths Toy.three) =
  (None, Some (LibraryError 2)) /\
  base_model (Ext := Toy.ext_nofit) Toy.three 3 = Ok None /\
  SelectorConstant_select (Ext := Toy.ext_nofit) Toy.three = Ok None.
Proof.
  split; [reflexivity|].
  destruct (fit_failure_is_swallowed (Ext := Toy.ext_nofit) Toy.three 3 None
              (LibraryError 2) eq_refl) as (Hbm & Hconst & _).
  split; [exact Hbm | exact (Hconst eq_refl)].
Defined.

Lemma SelectorDIC_drops_candidate_witness :
  (exists m e,
      base_model (Ext := Toy.ext (Toy.f (-5)) 7) Toy.pair 2 = Ok (Some m) /\
      exists w xl, In w (keys (hwords Toy.pair)) /\ w <> this_word Toy.pair /\
                   dict_get (hwords Toy.pair) w = Ok xl /\
                   hmm_score (External := Toy.ext (Toy.f (-5)) 7) m xl = Raise e) /\
  forall st, dic_step (Ext := Toy.ext (Toy.f (-5)) 7) Toy.pair st 2 = Ok st.
Proof.
  assert (exists m e,
      base_model (Ext := Toy.ext (Toy.f (-5)) 7) Toy.pair 2 = Ok (Some m) /\
      exists w xl, In w (keys (hwords Toy.pair)) /\ w <> this_word Toy.pair /\
                   dict_get (hwords Toy.pair) w = Ok xl /\
                   hmm_score (External := Toy.ext (Toy.f (-5)) 7) m xl = Raise e) as H.
  { eexists _, _. split; [reflexivity|]. exists "B"%string, Toy.xl7.
    split; [simpl; auto|]. split; [discriminate|]. split; reflexivity. }
  split; [exact H|].
  destruct H as (m & e & Hm & Hothers).
  apply (SelectorDIC_drops_candidate (Ext := Toy.ext (Toy.f (-5)) 7) Toy.pair 2).
  right. exists m, e. split; [exact Hm | right; exact Hothers].
Defined.

(** C10, as first stated, fails: the third fold is refitted and then fails to
    score, so the last fold that ran to its end is the second; yet the
    returned object holds the parameters of the third fold's refit. *)
Lemma SelectorCV_last_fold_scoring_fails :
  exists h o o0 kf,
    SelectorCV_select (Ext := Toy.ext (Toy.f (-5)) 3) Toy.three [] =
    (Ok (Some 0%nat), h) /\
    h !! 0%nat = Some o /\
    base_model (Ext := Toy.ext (Toy.f (-5)) 3) Toy.three (n_components o) = Ok (Some o0) /\
    KFold_init (Z.min (Z.of_nat (length (sequences Toy.three))) 3) = Ok kf /\
    KFold_split kf (length (sequences Toy.three)) = Ok Toy.folds3 /\
    Some (fitted o) <>
    last_ok_refit (Ext := Toy.ext (Toy.f (-5)) 3) Toy.three o0 Toy.folds3 None.
Proof.
  eexists _, _, _, _. split; [vm_compute; reflexivity|].
  split; [reflexivity|]. split; [vm_compute; reflexivity|].
  split; [vm_compute; reflexivity|]. split; [vm_compute; reflexivity|].
  vm_compute. intros [=].
Qed.

Lemma SelectorCV_returns_last_refit_witness :
  exists h,
    SelectorCV_select (Ext := Toy.ext (Toy.f (-5)) 9) Toy.three [] =
    (Ok (Some 0%nat), h) /\
    exists kf n o0 before tr te train o_prev,
      KFold_init (Z.min (Z.of_nat (length (sequences Toy.three))) 3) = Ok kf /\
      KFold_split kf (length (sequences Toy.three)) = Ok (before ++ [(tr, te)]) /\
      In n (py_range (min_n_components Toy.three) (max_n_components Toy.three + 1)) /\
      base_model (Ext := Toy.ext (Toy.f (-5)) 9) Toy.three n = Ok (Some o0) /\
      combine_sequences tr (sequences Toy.three) = Ok train /\
      o_prev = fst (cv_folds_obj (Ext := Toy.ext (Toy.f (-5)) 9) Toy.three o0 before) /\
      h !! 0%nat =
      Some (with_fitted o_prev
              (fst (hmm_fit (External := Toy.ext (Toy.f (-5)) 9) o_prev train))) /\
      snd (cv_folds_obj (Ext := Toy.ext (Toy.f (-5)) 9) Toy.three o0
             (before ++ [(tr, te)])) <> [].
Proof.
  eexists. split; [vm_compute; reflexivity|].
  apply (SelectorCV_returns_last_refit (Ext := Toy.ext (Toy.f (-5)) 9) Toy.three [] 0%nat).
  vm_compute. reflexivity.
Defined.

(** ** Further properties of the code *)

(** *** The constructor *)

Lemma dict_get_Ok {V : Type} (d : list (string * V)) k v :
  dict_get d k = Ok v -> In (k, v) d.
Proof.
  induction d as [|[k' v'] d IH]; simpl; [done|].
  destruct (decide (k = k')) as [->|_]; [intros [= ->]; by left | right; auto].
Qed.

Lemma dict_get_Raise {V : Type} (d : list (string * V)) k e :
  dict_get d k = Raise e -> e = KeyError /\ ~ In k (keys d).
Proof.
  induction d as [|[k' v'] d IH]; simpl; [intros [= <-]; tauto|].
  destruct (decide (k = k')) as [->|Hne]; [done|].
  intros H. destruct (IH H) as [-> Hnot]. split; [done|]. intros [<-|Hin]; done.
Qed.

Lemma dict_get_is_Ok {V : Type} (d : list (string * V)) k :
  In k (keys d) -> exists v, dict_get d k = Ok v.
Proof.
  intros Hin. destruct (dict_get d k) as [v|e] eqn:Hg; [eauto|].
  by destruct (dict_get_Raise d k e Hg).
Qed.

(** X1.  [ModelSelector.__init__] raises [KeyError], and nothing else,
    exactly when the word is missing from one of the two dictionaries.
    Otherwise the selector keeps both dictionaries as they were given, and
    its [sequences], [X] and [lengths] are the word's entries in them. *)
Theorem ModelSelector_init_spec (all_word_sequences : list (string * list sequence))
  (all_word_Xlengths : list (string * Xlengths)) (word : string)
  (n_const min_n max_n seed : Z) (verb : bool) :
  let init := ModelSelector_init all_word_sequences all_word_Xlengths word
                n_const min_n max_n seed verb in
  (forall e, init = Raise e ->
     e = KeyError /\
     (~ In word (keys all_word_sequences) \/ ~ In word (keys all_word_Xlengths))) /\
  (~ In word (keys all_word_sequences) \/ ~ In word (keys all_word_Xlengths) ->
   init = Raise KeyError) /\
  (forall self, init = Ok self ->
     words self = all_word_sequences /\ hwords self = all_word_Xlengths /\
     this_word self = word /\
     dict_get (words self) (this_word self) = Ok (sequences self) /\
     dict_get (hwords self) (this_word self) = Ok (X self, lengths self) /\
     n_constant self = n_const /\ min_n_components self = min_n /\
     max_n_components self = max_n /\ random_state self = seed).
Proof.
  simpl. unfold ModelSelector_init.
  destruct (dict_get all_word_sequences word) as [seqs|e1] eqn:H1; simpl.
  - destruct (dict_get all_word_Xlengths word) as [[x l]|e2] eqn:H2; simpl.
    + split; [done|]. split.
      * intros [Hn|Hn]; exfalso; apply Hn.
        -- apply dict_get_Ok in H1. apply in_map_iff. by exists (word, seqs).
        -- apply dict_get_Ok in H2. apply in_map_iff. by exists (word, (x, l)).
      * intros self [= <-]. simpl. by rewrite H1, H2.
    + destruct (dict_get_Raise _ _ _ H2) as [-> Hnot].
      split; [intros e [= <-]; auto|]. split; [done | done].
  - destruct (dict_get_Raise _ _ _ H1) as [-> Hnot].
    split; [intros e [= <-]; auto|]. split; [done | done].
Qed.

(** *** An empty search range *)

(** X2.  When [max_n_components < min_n_components] the range of state
    counts is empty: the BIC and DIC searches return [None], and so does the
    cross-validated search (given the two sequences its splitter needs),
    without creating a model object. *)
Theorem select_empty_range {P : Type} `{Ext : External P} (self : ModelSelector) :
  max_n_components self < min_n_components self ->
  SelectorBIC_select self = Ok None /\
  SelectorDIC_select self = Ok None /\
  forall h0 : list (GaussianHMM P),
    (2 <= length (sequences self))%nat ->
    SelectorCV_select self h0 = (Ok None, h0).
Proof.
  intros Hlt.
  assert (py_range (min_n_components self) (max_n_components self + 1) = []) as Hr
      by (apply py_range_nil; lia).
  unfold SelectorBIC_select, SelectorDIC_select, SelectorCV_select. rewrite Hr.
  split; [done|]. split; [done|].
  intros h0 Hlen. unfold mbind, lift, mret, KFold_init.
  destruct (Z.leb_spec (Z.min (Z.of_nat (length (sequences self))) 3) 1); [lia|done].
Qed.

Lemma select_empty_range_witness :
  max_n_components ToyMore.empty_range < min_n_components ToyMore.empty_range /\
  SelectorBIC_select (Ext := Toy.ext (Toy.f (-5)) 9) ToyMore.empty_range = Ok None.
Proof.
  split; [simpl; lia|].
  apply (select_empty_range (Ext := Toy.ext (Toy.f (-5)) 9) ToyMore.empty_range).
  simpl. lia.
Defined.

(** *** What SelectorDIC computes and selects *)

Section DicProperties.

Context {P : Type} `{Ext : External P}.

Lemma dic_others_float (self : ModelSelector) (m : GaussianHMM P)
  (l : list (string * Xlengths)) scores g c :
  Forall2 (scored_as self m) (filter (fun entry => fst entry <> this_word self) l)
    scores ->
  for_loop l (dic_others_step self m) (PyFloat g, c) =
  Ok (PyFloat (fold_left fadd scores g), c + Z.of_nat (length scores)).
Proof.
  revert scores g c. induction l as [|[w xl0] l IH]; intros scores g c Hsc.
  - apply Forall2_nil_inv_l in Hsc as ->. simpl. f_equal; f_equal; lia.
  - rewrite filter_cons in Hsc. cbn [for_loop]. unfold dic_others_step at 1.
    cbn [fst snd] in *. destruct (decide (w <> this_word self)) as [Hne|Heq].
    + apply Forall2_cons_inv_l in Hsc as (s & scores' & (xl & Hget & Hs) & Hsc & ->).
      cbn [fst] in Hget. rewrite Hget. cbn [rbind]. rewrite Hs. cbn [rbind num_add_float].
      rewrite (IH scores' _ _ Hsc). cbn [fold_left length]. f_equal; f_equal; lia.
    + cbn [rbind]. by apply IH.
Qed.

Lemma dic_others_sum (self : ModelSelector) (m : GaussianHMM P)
  (l : list (string * Xlengths)) scores :
  Forall2 (scored_as self m) (filter (fun entry => fst entry <> this_word self) l)
    scores ->
  scores <> [] ->
  for_loop l (dic_others_step self m) (PyInt 0, 0) =
  Ok (PyFloat (fold_left fadd scores zero), Z.of_nat (length scores)).
Proof.
  revert scores. induction l as [|[w xl0] l IH]; intros scores Hsc Hne.
  - by apply Forall2_nil_inv_l in Hsc.
  - rewrite filter_cons in Hsc. cbn [for_loop]. unfold dic_others_step at 1.
    cbn [fst snd] in *. destruct (decide (w <> this_word self)) as [Hw|Hw].
    + apply Forall2_cons_inv_l in Hsc as (s & scores' & (xl & Hget & Hs) & Hsc & ->).
      cbn [fst] in Hget. rewrite Hget. cbn [rbind]. rewrite Hs. cbn [rbind].
      change (num_add_float (PyInt 0) s) with (Ok (PyFloat (fadd zero s))).
      cbn [rbind]. rewrite (dic_others_float self m l scores' _ _ Hsc).
      cbn [fold_left length snd]. f_equal; f_equal; lia.
    + cbn [rbind]. by apply IH.
Qed.

(** X3.  For a fitted model that scores its own data and the data of every
    other word, the criterion is the model's log-likelihood minus the mean
    of its scores on the other words, taken in the order of [hwords]. *)
Theorem dic_candidate_value (self : ModelSelector) (m : GaussianHMM P)
  (logL : float) (scores : list float) :
  hmm_score m (X self, lengths self) = Ok logL ->
  Forall2 (scored_as self m) (other_words self) scores ->
  scores <> [] ->
  is_infinite (round_Z (Z.of_nat (length scores))) = false ->
  dic_candidate self m = Ok (fsub logL (np_mean scores)).
Proof.
  intros HL Hsc Hne Hfin. unfold dic_candidate, dic_others. rewrite HL. cbn [rbind].
  rewrite (dic_others_sum self m (hwords self) scores Hsc Hne). cbn [rbind].
  unfold num_truediv_int, float_of_int.
  destruct (Z.eqb_spec (Z.of_nat (length scores)) 0) as [H0|_].
  { destruct scores; [done | simpl in H0; lia]. }
  rewrite Hfin. reflexivity.
Qed.

Lemma dic_step_keep_best (self : ModelSelector) st n :
  dic_step self st n =
  Ok (keep_best fgt st
        (model <- base_model self n ;;
         match model with
         | Some m => DIC <- dic_candidate self m ;; Ok (DIC, Some m)
         | None => Raise AttributeError
         end)).
Proof.
  unfold dic_step. destruct (base_model self n) as [[m|]|e]; simpl; try done.
  by destruct (dic_candidate self m).
Qed.

(** X4.  [SelectorDIC.select] returns [None] exactly when no state count of
    the range yields a criterion greater than [-inf]; otherwise it returns
    the model of the first state count whose criterion is greater than
    [-inf] and is exceeded by no other state count's criterion. *)
Theorem SelectorDIC_select_maximum (self : ModelSelector) :
  let range := py_range (min_n_components self) (max_n_components self + 1) in
  exists best,
    SelectorDIC_select self = Ok best /\
    match best with
    | None =>
        forall n m DIC,
          In n range -> base_model self n = Ok (Some m) ->
          dic_candidate self m = Ok DIC -> fgt DIC neg_inf = false
    | Some m =>
        exists n DIC,
          In n range /\ base_model self n = Ok (Some m) /\
          dic_candidate self m = Ok DIC /\ fgt DIC neg_inf = true /\
          (forall n' m' DIC',
              In n' range -> base_model self n' = Ok (Some m') ->
              dic_candidate self m' = Ok DIC' -> fgt DIC' DIC = false) /\
          (forall n' m' DIC',
              In n' range -> n' < n -> base_model self n' = Ok (Some m') ->
              dic_candidate self m' = Ok DIC' -> is_nan DIC' = false ->
              fgt DIC DIC' = true)
    end.
Proof.
  intros range. unfold SelectorDIC_select. fold range.
  set (cand := fun n => model <- base_model self n ;;
                        match model with
                        | Some m => DIC <- dic_candidate self m ;; Ok (DIC, Some m)
                        | None => Raise AttributeError
                        end).
  assert (forall n m DIC, base_model self n = Ok (Some m) ->
                          dic_candidate self m = Ok DIC ->
                          cand n = Ok (DIC, Some m)) as Hcand.
  { intros n m DIC Hm HD. unfold cand. rewrite Hm. simpl. by rewrite HD. }
  assert (forall n DIC a, cand n = Ok (DIC, a) ->
                          exists m, a = Some m /\ base_model self n = Ok (Some m) /\
                                    dic_candidate self m = Ok DIC) as Hinv.
  { intros n DIC a. unfold cand.
    destruct (base_model self n) as [[m|]|e]; simpl; try done.
    destruct (dic_candidate self m) as [D|e] eqn:HD; simpl; [|done].
    intros [= <- <-]. exists m. by rewrite HD. }
  rewrite (for_loop_total _ _ (fun st n => keep_best fgt st (cand n)))
    by (intros; apply dic_step_keep_best).
  cbn [rbind]. rewrite fold_left_keep_best_map.
  destruct (keep_best_fold fgt fgt_irrefl fgt_trans fgt_weak (map cand range) neg_inf None)
    as [[-> Hall]|(l1 & s & a & l2 & Hsplit & -> & Hb & Hall & Hfirst)].
  - exists None. split; [done|]. intros n m DIC Hin Hm HD.
    apply (Hall DIC (Some m)). rewrite <- (Hcand n m DIC Hm HD). by apply in_map.
  - exists a. split; [done|].
    apply map_eq_app in Hsplit as (r1 & r2' & Hr & <- & Hr2).
    apply map_eq_cons in Hr2 as (n & r2 & -> & Hn & <-).
    destruct (Hinv _ _ _ Hn) as (m & -> & Hm & HD).
    exists n, s. split; [rewrite Hr; apply in_elt|].
    split; [done|]. split; [done|]. split; [done|]. split.
    + intros n' m' DIC' Hin Hm' HD'. apply (Hall DIC' (Some m')).
      rewrite <- (Hcand n' m' DIC' Hm' HD'). by apply in_map.
    + intros n' m' DIC' Hin Hlt Hm' HD' Hnan. apply (Hfirst DIC' (Some m')); [|done].
      rewrite <- (Hcand n' m' DIC' Hm' HD'). apply in_map.
      by apply (py_range_before _ _ _ _ _ _ Hr).
Qed.

End DicProperties.

Lemma dic_candidate_value_witness :
  hmm_score (External := Toy.ext (Toy.f (-5)) 9) (Toy.hmm 2 (Some Toy.xl3))
    (X Toy.pair, lengths Toy.pair) = Ok (Toy.f (-5)) /\
  Forall2 (scored_as (Ext := Toy.ext (Toy.f (-5)) 9) Toy.pair (Toy.hmm 2 (Some Toy.xl3)))
    (other_words Toy.pair) [Toy.f (-5)] /\
  dic_candidate (Ext := Toy.ext (Toy.f (-5)) 9) Toy.pair (Toy.hmm 2 (Some Toy.xl3)) =
  Ok (fsub (Toy.f (-5)) (np_mean [Toy.f (-5)])).
Proof.
  assert (Forall2 (scored_as (Ext := Toy.ext (Toy.f (-5)) 9) Toy.pair
                     (Toy.hmm 2 (Some Toy.xl3)))
            (other_words Toy.pair) [Toy.f (-5)]) as H.
  { change (other_words Toy.pair) with [("B"%string, Toy.xl7)].
    constructor; [|constructor]. exists Toy.xl7. split; reflexivity. }
  split; [reflexivity|]. split; [exact H|].
  apply (dic_candidate_value (Ext := Toy.ext (Toy.f (-5)) 9) Toy.pair
           (Toy.hmm 2 (Some Toy.xl3)) (Toy.f (-5)) [Toy.f (-5)]).
  - reflexivity.
  - exact H.
  - discriminate.
  - reflexivity.
Defined.

(** *** What SelectorCV computes, selects and leaves alone *)

Section CvProperties.

Context {P : Type} `{Ext : External P}.

Implicit Types (h : list (GaussianHMM P)) (st : float * option nat).

(** The loop state against the running best over the mean scores: the same
    best score, and the best model is the object made for the best state
    count. *)
Lemma cv_loop_tracks (self : ModelSelector) kf (l : list Z) st h
  (kst : float * option Z) :
  fst st = fst kst ->
  match snd st, snd kst with
  | None, None => True
  | Some r, Some n => exists o, h !! r = Some o /\ n_components o = n
  | _, _ => False
  end ->
  exists st' h',
    mfor l (cv_step self kf) st h = (Ok st', h') /\
    let kst' :=
      fold_left (keep_best fgt)
        (map (fun n => match cv_mean_score self kf n with
                       | Some s => Ok (s, Some n)
                       | None => Raise AttributeError
                       end) l) kst in
    fst st' = fst kst' /\
    match snd st', snd kst' with
    | None, None => True
    | Some r, Some n => exists o, h' !! r = Some o /\ n_components o = n
    | _, _ => False
    end.
Proof.
  revert st h kst. induction l as [|n l IH]; intros st h kst Hs Hb.
  { simpl. unfold mret. eauto. }
  cbn [mfor map fold_left]. set (rest := map _ l).
  unfold mbind. rewrite cv_step_spec. unfold cv_mean_score.
  assert (forall x : GaussianHMM P,
             match snd st, snd kst with
             | None, None => True
             | Some r, Some n => exists o, (h ++ [x]) !! r = Some o /\ n_components o = n
             | _, _ => False
             end) as Hb'.
  { intros x. destruct (snd st), (snd kst); try done.
    destruct Hb as (o & Ho & Hn). exists o. split; [by apply lookup_app_l_Some | done]. }
  destruct (base_model self n) as [[o|]|e] eqn:Hbm;
    [| subst rest; apply IH; [exact Hs | exact Hb]
     | subst rest; apply IH; [exact Hs | exact Hb]].
  destruct (KFold_split kf _) as [folds|e];
    [| subst rest; apply IH; [exact Hs | exact (Hb' o)]].
  cbn [keep_best fst]. rewrite <- Hs.
  destruct (fgt _ (fst st)); [|subst rest; apply IH; [exact Hs | exact (Hb' _)]].
  subst rest. apply IH; [done|]. simpl. eexists. split; [by apply list_lookup_middle|].
  rewrite cv_folds_obj_n_components. by apply (base_model_n_components self).
Qed.

(** X5.  When the splitter can be built, [SelectorCV.select] returns: it
    gives [None] exactly when no state count of the range has a mean fold
    score greater than [-inf]; otherwise it gives the object made for the
    first state count whose mean fold score is greater than [-inf] and is
    exceeded by no other state count's. *)
Theorem SelectorCV_select_maximum (self : ModelSelector) (kf : KFold) h0 :
  let range := py_range (min_n_components self) (max_n_components self + 1) in
  KFold_init (Z.min (Z.of_nat (length (sequences self))) 3) = Ok kf ->
  exists best h,
    SelectorCV_select self h0 = (Ok best, h) /\
    match best with
    | None =>
        forall n s, In n range -> cv_mean_score self kf n = Some s ->
                    fgt s neg_inf = false
    | Some r =>
        exists n s o,
          In n range /\ h !! r = Some o /\ n_components o = n /\
          cv_mean_score self kf n = Some s /\ fgt s neg_inf = true /\
          (forall n' s', In n' range -> cv_mean_score self kf n' = Some s' ->
                         fgt s' s = false) /\
          (forall n' s', In n' range -> n' < n ->
                         cv_mean_score self kf n' = Some s' ->
                         is_nan s' = false -> fgt s s' = true)
    end.
Proof.
  intros range Hkf. unfold SelectorCV_select, mbind, lift, mret. rewrite Hkf.
  fold range.
  set (cand := fun n => match cv_mean_score self kf n with
                        | Some s => Ok (s, Some n)
                        | None => Raise AttributeError
                        end).
  destruct (cv_loop_tracks self kf range (neg_inf, None) h0 (neg_inf, None))
    as (st' & h' & -> & Hs & Hb); [done|done|].
  fold cand in Hs, Hb. cbn zeta in Hs, Hb.
  exists (snd st'), h'. split; [done|].
  assert (forall n s, cv_mean_score self kf n = Some s -> cand n = Ok (s, Some n))
    as Hcand by (intros n s Hn; unfold cand; by rewrite Hn).
  destruct (keep_best_fold fgt fgt_irrefl fgt_trans fgt_weak (map cand range) neg_inf None)
    as [[Hfold Hall]|(l1 & s & a & l2 & Hsplit & Hfold & Hgt & Hall & Hfirst)];
    rewrite Hfold in Hs, Hb; simpl in Hs, Hb.
  - destruct (snd st'); [done|]. intros n s Hin Hn.
    apply (Hall s (Some n)). rewrite <- (Hcand n s Hn). by apply in_map.
  - apply map_eq_app in Hsplit as (r1 & r2' & Hr & <- & Hr2).
    apply map_eq_cons in Hr2 as (n & r2 & -> & Hn & <-).
    unfold cand in Hn. destruct (cv_mean_score self kf n) as [s0|] eqn:Hsc; [|done].
    injection Hn as -> <-. destruct (snd st') as [r|]; [|done].
    destruct Hb as (o & Ho & Hno).
    exists n, s, o. split; [rewrite Hr; apply in_elt|].
    split; [done|]. split; [done|]. split; [done|]. split; [done|]. split.
    + intros n' s' Hin Hn'. apply (Hall s' (Some n')).
      rewrite <- (Hcand n' s' Hn'). by apply in_map.
    + intros n' s' Hin Hlt Hn' Hnan. apply (Hfirst s' (Some n')); [|done].
      rewrite <- (Hcand n' s' Hn'). apply in_map.
      by apply (py_range_before _ _ _ _ _ _ Hr).
Qed.

(** X6.  Whatever [SelectorCV.select] does, the model objects that existed
    before the call are still there, unchanged, after it (also when it
    raises), and a model it returns is an object created during the call. *)
Theorem SelectorCV_select_frame (self : ModelSelector) h0 res h :
  SelectorCV_select self h0 = (res, h) ->
  (exists created, h = h0 ++ created) /\
  (forall r o, h0 !! r = Some o -> h !! r = Some o) /\
  (forall r, res = Ok (Some r) -> (length h0 <= r < length h)%nat).
Proof.
  unfold SelectorCV_select, mbind, lift, mret.
  destruct (KFold_init _) as [kf|e].
  - destruct (mfor_cv_step self kf
                (fun st h => (exists created, h = h0 ++ created) /\
                             forall r, snd st = Some r -> (length h0 <= r < length h)%nat)
                (py_range (min_n_components self) (max_n_components self + 1))
                (neg_inf, None) h0) as (st' & h' & -> & [created ->] & Hfresh).
    + split; [by exists []; rewrite app_nil_r | intros r [=]].
    + intros st h1 n _ [[created ->] Hfresh]. rewrite cv_step_spec.
      assert (forall x : GaussianHMM P,
                 (exists created', (h0 ++ created) ++ [x] = h0 ++ created') /\
                 forall r, snd st = Some r ->
                           (length h0 <= r < length ((h0 ++ created) ++ [x]))%nat) as Hkeep.
      { intros x. split; [exists (created ++ [x]); by rewrite app_assoc|].
        intros r Hr. specialize (Hfresh r Hr). rewrite length_app. simpl. lia. }
      destruct (base_model self n) as [[o|]|e];
        [| by eexists _, _; split; [done | split; [eauto | exact Hfresh]]
         | by eexists _, _; split; [done | split; [eauto | exact Hfresh]]].
      destruct (KFold_split kf _) as [folds|e];
        [| eexists _, _; split; [done | apply Hkeep]].
      simpl. eexists _, _. split; [done|].
      destruct (fgt _ (fst st)); [|apply Hkeep].
      split; [exists (created ++ [(cv_folds_obj self o folds).1]); by rewrite app_assoc|].
      simpl. intros r [= <-]. rewrite !length_app. simpl. lia.
    + intros [= <- <-]. split; [eauto|]. split.
      * intros r o Hr. by apply lookup_app_l_Some.
      * intros r [= Hr]. by apply Hfresh.
  - intros [= <- <-]. split; [by exists []; rewrite app_nil_r|]. split; done.
Qed.

End CvProperties.

Lemma SelectorCV_select_maximum_witness :
  KFold_init (Z.min (Z.of_nat (length (sequences Toy.three))) 3) = Ok {| n_splits := 3 |} /\
  exists best h,
    SelectorCV_select (Ext := Toy.ext (Toy.f (-5)) 9) Toy.three [] = (Ok best, h).
Proof.
  split; [reflexivity|].
  destruct (SelectorCV_select_maximum (Ext := Toy.ext (Toy.f (-5)) 9) Toy.three
              {| n_splits := 3 |} [] eq_refl) as (best & h & Hsel & _).
  exists best, h. exact Hsel.
Defined.

Lemma SelectorCV_select_frame_witness :
  exists h,
    SelectorCV_select (Ext := Toy.ext (Toy.f (-5)) 9) Toy.three [Toy.hmm 5 None] =
    (Ok (Some 1%nat), h) /\
    h !! 0%nat = Some (Toy.hmm 5 None).
Proof.
  eexists. split; [vm_compute; reflexivity|].
  eapply (SelectorCV_select_frame (Ext := Toy.ext (Toy.f (-5)) 9) Toy.three
            [Toy.hmm 5 None]).
  - vm_compute. reflexivity.
  - reflexivity.
Defined.

(** *** The folds SelectorCV trains and scores on *)

Lemma fold_size_pos (n k i : nat) : (0 < k <= n)%nat -> (1 <= fold_size n k i)%nat.
Proof.
  intros Hk. unfold fold_size.
  assert (k <> 0%nat) as Hk0 by lia.
  pose proof (Nat.div_mod_eq n k) as Hdiv.
  pose proof (Nat.mod_upper_bound n k Hk0) as Hmod.
  assert (n / k <> 0)%nat by nia. lia.
Qed.

Lemma fold_size_lt (n k i : nat) : (2 <= k <= n)%nat -> (fold_size n k i < n)%nat.
Proof.
  intros Hk. unfold fold_size.
  assert (k <> 0%nat) as Hk0 by lia.
  pose proof (Nat.div_mod_eq n k) as Hdiv.
  pose proof (Nat.mod_upper_bound n k Hk0) as Hmod.
  assert (n / k <> 0)%nat by nia.
  destruct (Nat.ltb_spec i (n mod k)); nia.
Qed.

Lemma combine_sequences_rows (idx : list nat) (seqs : list sequence) x l :
  combine_sequences idx seqs = Ok (x, l) ->
  length l = length idx /\ length x = list_sum l.
Proof.
  unfold combine_sequences.
  destruct (pick_sequences idx seqs) as [picked|e] eqn:Hp; simpl; [|done].
  intros [= <- <-]. split.
  - rewrite length_map. revert picked Hp.
    induction idx as [|j idx IH]; intros picked; simpl; [by intros [= <-]|].
    destruct (seqs !! j); [|done].
    destruct (pick_sequences idx seqs) as [tl|e]; simpl; [|done].
    intros [= <-]. simpl. f_equal. by apply IH.
  - apply length_concat.
Qed.

(** X7.  With two training sequences or more, the fold construction of
    [SelectorCV.select] cannot fail.  There are [min(len(sequences), 3)]
    folds; in each, the held-out and the training indices are both
    non-empty, do not overlap and together are all the sequence indices;
    [combine_sequences] succeeds on both, giving as many lengths as
    indices and a matrix with as many rows as the lengths add up to. *)
Theorem SelectorCV_folds_well_formed (self : ModelSelector) :
  (2 <= length (sequences self))%nat ->
  exists kf folds,
    KFold_init (Z.min (Z.of_nat (length (sequences self))) 3) = Ok kf /\
    KFold_split kf (length (sequences self)) = Ok folds /\
    length folds = Nat.min (length (sequences self)) 3 /\
    forall tr te,
      In (tr, te) folds ->
      tr <> [] /\ te <> [] /\
      (forall j, (j < length (sequences self))%nat <-> j ∈ tr \/ j ∈ te) /\
      (forall j, j ∈ tr -> j ∉ te) /\
      exists train test,
        combine_sequences tr (sequences self) = Ok train /\
        combine_sequences te (sequences self) = Ok test /\
        length (snd train) = length tr /\ length (fst train) = list_sum (snd train) /\
        length (snd test) = length te /\ length (fst test) = list_sum (snd test).
Proof.
  intros Hlen. set (n := length (sequences self)) in *.
  assert (Z.min (Z.of_nat n) 3 = Z.of_nat (Nat.min n 3)) as Hk by lia.
  exists {| n_splits := Z.min (Z.of_nat n) 3 |}.
  exists (map (kfold_indices n (Nat.min n 3)) (seq 0 (Nat.min n 3))).
  split; [unfold KFold_init; destruct (Z.leb_spec (Z.min (Z.of_nat n) 3) 1); [lia|done]|].
  split.
  { unfold KFold_split. simpl.
    destruct (Z.ltb_spec (Z.of_nat n) (Z.min (Z.of_nat n) 3)); [lia|].
    by rewrite Hk, Nat2Z.id. }
  split; [by rewrite length_map, length_seq|].
  intros tr te Hin. apply in_map_iff in Hin as (i & Hi & Hin). apply in_seq in Hin.
  set (k := Nat.min n 3) in *.
  pose proof (fold_bounds n k i ltac:(lia)) as Hb.
  pose proof (fold_size_pos n k i ltac:(lia)) as Hpos.
  pose proof (fold_size_lt n k i ltac:(lia)) as Hlt.
  destruct (kfold_indices_valid n k i ltac:(lia)) as [Vtr Vte].
  rewrite Hi in Vtr, Vte. simpl in Vtr, Vte.
  unfold kfold_indices in Hi. simpl in Hi. injection Hi as <- <-.
  split; [|split; [|split; [|split]]].
  - intros Hnil. apply (f_equal length) in Hnil.
    rewrite length_app, !length_seq in Hnil. simpl in Hnil. lia.
  - intros Hnil. apply (f_equal length) in Hnil. rewrite length_seq in Hnil.
    simpl in Hnil. lia.
  - intros j. rewrite elem_of_app, !elem_of_seq. lia.
  - intros j. rewrite elem_of_app, !elem_of_seq. lia.
  - destruct (combine_sequences_Ok _ (sequences self) Vtr) as [[x1 l1] H1].
    destruct (combine_sequences_Ok _ (sequences self) Vte) as [[x2 l2] H2].
    exists (x1, l1), (x2, l2).
    destruct (combine_sequences_rows _ _ _ _ H1) as [? ?].
    destruct (combine_sequences_rows _ _ _ _ H2) as [? ?]. done.
Qed.

Lemma SelectorCV_folds_well_formed_witness :
  (2 <= length (sequences Toy.three))%nat /\
  exists kf folds,
    KFold_init (Z.min (Z.of_nat (length (sequences Toy.three))) 3) = Ok kf /\
    KFold_split kf (length (sequences Toy.three)) = Ok folds /\
    length folds = 3%nat.
Proof.
  split; [simpl; lia|].
  destruct (SelectorCV_folds_well_formed Toy.three) as (kf & folds & H1 & H2 & H3 & _);
    [simpl; lia|].
  exists kf, folds. split; [exact H1|]. split; [exact H2 | exact H3].
Defined.

(** *** Categories the recognizer cannot score *)

(** X8.  A category that has no model in the mapping, or whose model raises
    when scoring a test item, is recorded with [-inf] for that item and is
    never the guess for it. *)
Theorem recognize_skips_unscored {P : Type} `{Ext : External P}
  (models : list (string * option (GaussianHMM P))) (test_set : SinglesData) :
  NoDup (keys models) ->
  exists probabilities guesses,
    recognize models test_set = Ok (probabilities, guesses) /\
    forall (i : nat) xl item model,
      values (get_all_Xlengths test_set) !! i = Some xl ->
      In (item, model) models ->
      (model = None \/ exists e, py_score model xl = Raise e) ->
      (exists d, probabilities !! i = Some d /\ d !! item = Some neg_inf) /\
      guesses !! i <> Some (Some item).
Proof.
  intros Hnd. rewrite recognize_spec. eexists _, _. split; [done|].
  intros i xl item model Hi Hin Hfail.
  assert (exists e, py_score model xl = Raise e) as [e He].
  { destruct Hfail as [->|?]; [by exists AttributeError | done]. }
  assert (score_table models xl ∅ !! item = Some neg_inf) as Htab.
  { rewrite (score_table_lookup _ _ _ _ _ Hnd Hin). unfold recorded. by rewrite He. }
  split.
  - exists (score_table models xl ∅). by rewrite list_lookup_fmap, Hi.
  - rewrite list_lookup_fmap, Hi. simpl. intros [= Hg].
    pose proof (best_guess_spec models xl Hnd) as Hspec. rewrite Hg in Hspec.
    destruct Hspec as (s & _ & _ & _ & Hs & Hgt & _).
    rewrite Htab in Hs. injection Hs as <-. by rewrite fgt_neg_inf_l in Hgt.
Qed.

Lemma recognize_skips_unscored_witness :
  NoDup (keys ToyMore.models_gap) /\
  exists probabilities guesses,
    recognize (Ext := Toy.ext (Toy.f (-5)) 9) ToyMore.models_gap Toy.test_set =
    Ok (probabilities, guesses) /\
    guesses !! 0%nat <> Some (Some "A"%string).
Proof.
  assert (NoDup (keys ToyMore.models_gap)) as H.
  { apply (bool_decide_unpack (NoDup (keys ToyMore.models_gap))). vm_compute. exact I. }
  split; [exact H|].
  destruct (recognize_skips_unscored (Ext := Toy.ext (Toy.f (-5)) 9)
              ToyMore.models_gap Toy.test_set H) as (ps & gs & Hrec & Hall).
  exists ps, gs. split; [exact Hrec|].
  apply (Hall 0%nat Toy.xl1 "A"%string None); [reflexivity | simpl; auto | auto].
Defined.

(** *** The models the selectors without folds return *)

Section FullDataProperties.

Context {P : Type} `{Ext : External P}.

Lemma base_model_full_data (self : ModelSelector) n (m : GaussianHMM P) :
  base_model self n = Ok (Some m) -> fitted_on_full_data self n m.
Proof.
  rewrite base_model_cases. unfold fitted_on_full_data.
  destruct (hmm_fit (new_hmm self n) (X self, lengths self)) as [p [e|]]; simpl; [done|].
  by intros [= <-].
Qed.

Lemma search_keeps_base_model (self : ModelSelector)
  (step : float * option (GaussianHMM P) -> Z -> result (float * option (GaussianHMM P)))
  (l : list Z) init st :
  (forall st n st' m, step st n = Ok st' -> snd st' = Some m ->
                      snd st = Some m \/ base_model self n = Ok (Some m)) ->
  for_loop l step (init, None) = Ok st ->
  forall m, snd st = Some m -> exists n, In n l /\ base_model self n = Ok (Some m).
Proof.
  intros Hstep.
  assert (forall l0 s0 st,
             (forall m, snd s0 = Some m ->
                        exists n, In n l /\ base_model self n = Ok (Some m)) ->
             (forall n, In n l0 -> In n l) ->
             for_loop l0 step s0 = Ok st ->
             forall m, snd st = Some m ->
                       exists n, In n l /\ base_model self n = Ok (Some m)) as Hgen.
  { induction l0 as [|n l0 IH]; intros s0 st' Hs0 Hsub; simpl.
    - by intros [= <-].
    - destruct (step s0 n) as [s1|e] eqn:Hs1; simpl; [|done].
      apply IH; [|intros; apply Hsub; by right].
      intros m Hm. destruct (Hstep _ _ _ _ Hs1 Hm) as [Hold|Hnew]; [by apply Hs0|].
      exists n. split; [apply Hsub; by left | done]. }
  intros Hloop. apply (Hgen l (init, None) st); [intros m [=] | done | done].
Qed.

(** X9.  A model returned by [SelectorConstant], [SelectorBIC] or
    [SelectorDIC] is the object built with [covariance_type="diag"],
    [n_iter=1000] and the selector's [random_state] for a state count of the
    search ([n_constant] for the constant selector), holding the parameters
    of a successful [fit] on the word's full combined data. *)
Theorem select_returns_full_data_fit (self : ModelSelector) :
  let range := py_range (min_n_components self) (max_n_components self + 1) in
  (forall m : GaussianHMM P,
      SelectorConstant_select self = Ok (Some m) ->
      fitted_on_full_data self (n_constant self) m) /\
  (forall m : GaussianHMM P,
      SelectorBIC_select self = Ok (Some m) ->
      exists n, In n range /\ fitted_on_full_data self n m) /\
  (forall m : GaussianHMM P,
      SelectorDIC_select self = Ok (Some m) ->
      exists n, In n range /\ fitted_on_full_data self n m).
Proof.
  intros range. split; [|split].
  - intros m. apply base_model_full_data.
  - intros m. unfold SelectorBIC_select. fold range.
    destruct (for_loop range (bic_step self) (inf, None)) as [st|e] eqn:Hloop;
      simpl; [|done].
    intros [= Hm].
    destruct (search_keeps_base_model self (bic_step self) range inf st) with (m := m)
      as (n & Hn & Hbm); [|done|done|].
    + intros st0 n st' m0. rewrite bic_step_keep_best. intros [= <-].
      destruct (bic_candidate self n) as [[b model]|e] eqn:Hc; simpl; [|by left].
      destruct (flt b (fst st0)); [|by left]. simpl. intros ->.
      destruct (bic_candidate_model _ _ _ _ Hc) as (m1 & [= <-] & Hb). by right.
    + exists n. split; [done | by apply base_model_full_data].
  - intros m. unfold SelectorDIC_select. fold range.
    destruct (for_loop range (dic_step self) (neg_inf, None)) as [st|e] eqn:Hloop;
      simpl; [|done].
    intros [= Hm].
    destruct (search_keeps_base_model self (dic_step self) range neg_inf st) with (m := m)
      as (n & Hn & Hbm); [|done|done|].
    + intros st0 n st' m0. unfold dic_step.
      destruct (base_model self n) as [[m1|]|e] eqn:Hb; simpl;
        [|intros [= <-]; by left | intros [= <-]; by left].
      destruct (dic_candidate self m1) as [DIC|e]; simpl; [|intros [= <-]; by left].
      destruct (fgt DIC (fst st0)); intros [= <-]; [|by left].
      simpl. intros [= <-]. by right.
    + exists n. split; [done | by apply base_model_full_data].
Qed.

End FullDataProperties.
